(** * The chat client of the GitHub repository analyzer

    A shallow embedding of the two client components that hold the
    behaviour of the front end:

    - [ChatInterface] ([handleSubmit]): builds the request, reads the
      server-sent event stream chunk by chunk, reassembles the records and
      folds every decoded event into the message list;
    - [MessageList]: decides which result tables an assistant message shows
      and how many rows each of them renders.

    JavaScript strings are sequences of UTF-16 code units, the chunks that
    [reader.read()] yields are byte arrays.  [TextDecoder.decode] is modelled
    after the UTF-8 decoder of the Encoding standard and [Number] after
    the string-to-number conversion of the language; [JSON.parse] and
    [String.prototype.toLowerCase] are platform functions and are taken as
    parameters, and so is the order that [Array.prototype.sort] gives to a
    list which its comparator does not order consistently. *)

From Stdlib Require Import Strings.String Strings.Ascii Strings.Byte.
From Stdlib Require Import Numbers.DecimalString Numbers.DecimalN.
From Stdlib Require Import NArith ZArith Bool Lia Arith List.
From Stdlib Require Import Sorting.Permutation.
Import ListNotations.

Set Warnings "-register-all".

(* ===================================================================== *)
(** ** JavaScript strings *)
(* ===================================================================== *)

Module Js.

(** A string is the list of its UTF-16 code units. *)
Abbreviation jsstring := (list N).

(** An ASCII literal as a JavaScript string. *)
Definition js (s : string) : jsstring :=
  List.map N_of_ascii (list_ascii_of_string s).

(** The same literal with every apostrophe read as a double quote, to
    write JSON text. *)
Definition unquote (a : ascii) : ascii :=
  if Ascii.eqb a "'"%char then "034"%char else a.

Definition jsq (s : string) : jsstring :=
  List.map (fun a => N_of_ascii (unquote a)) (list_ascii_of_string s).

Definition bytesq (s : string) : list byte :=
  List.map (fun a => byte_of_ascii (unquote a)) (list_ascii_of_string s).

(** [a === b] on strings. *)
Fixpoint jseq (a b : jsstring) : bool :=
  match a, b with
  | [], [] => true
  | x :: a', y :: b' => N.eqb x y && jseq a' b'
  | _, _ => false
  end.

(** [a <= b] on strings: code units compared left to right. *)
Fixpoint jsle (a b : jsstring) : bool :=
  match a, b with
  | [], _ => true
  | _ :: _, [] => false
  | x :: a', y :: b' =>
      if N.ltb x y then true
      else if N.eqb x y then jsle a' b'
      else false
  end.

(** A non-empty string is truthy. *)
Definition truthy (s : jsstring) : bool :=
  match s with [] => false | _ :: _ => true end.

(** [s.startsWith(p)] *)
Fixpoint startsWith (p s : jsstring) : bool :=
  match p, s with
  | [], _ => true
  | _ :: _, [] => false
  | x :: p', y :: s' => N.eqb x y && startsWith p' s'
  end.

(** [s.includes(p)] *)
Fixpoint includes (p s : jsstring) : bool :=
  startsWith p s ||
  match s with
  | [] => false
  | _ :: s' => includes p s'
  end.

(** [s.slice(n)] for a non-negative [n]. *)
Definition slice (n : nat) (s : jsstring) : jsstring := skipn n s.

(** White space and line terminators, the code units [trim] removes. *)
Definition isWhiteSpace (c : N) : bool :=
  ((0x09 <=? c) && (c <=? 0x0D) || (c =? 0x20) || (c =? 0xA0)
   || (c =? 0x1680) || (0x2000 <=? c) && (c <=? 0x200A)
   || (c =? 0x2028) || (c =? 0x2029) || (c =? 0x202F) || (c =? 0x205F)
   || (c =? 0x3000) || (c =? 0xFEFF))%N.

Fixpoint trimStart (s : jsstring) : jsstring :=
  match s with
  | [] => []
  | c :: s' => if isWhiteSpace c then trimStart s' else s
  end.

(** [s.trim()] *)
Definition trim (s : jsstring) : jsstring :=
  rev (trimStart (rev (trimStart s))).

(** The line feed, the record delimiter of the stream. *)
Definition LF : N := 0x0A%N.

(** [s.split("\n")]: never empty, the last element is what follows the
    last line feed. *)
Fixpoint split (s : jsstring) : list jsstring :=
  match s with
  | [] => [[]]
  | c :: s' =>
      if N.eqb c LF then [] :: split s'
      else match split s' with
           | [] => [[c]]
           | l :: ls => (c :: l) :: ls
           end
  end.

(** [Date.now().toString()]: the decimal digits of a timestamp. *)
Definition toString (n : N) : jsstring :=
  js (NilZero.string_of_uint (N.to_uint n)).

(** *** Numbers *)

(** A Number other than NaN: an infinity or a finite double.  Every finite
    double is an integer multiple of 2^-1074 and is given by that integer.
    The sign of a zero is not kept: no comparison reads it. *)
Inductive double : Type :=
| Infinite (negative : bool)
| Finite (z : Z).

Definition negate (x : double) : double :=
  match x with
  | Infinite negative => Infinite (negb negative)
  | Finite z => Finite (- z)
  end.

(** The integer nearest to [n / d], the even one of two that are equally
    near, for [0 <= n] and [0 < d]. *)
Definition roundHalfEven (n d : Z) : Z :=
  let q := (n / d)%Z in
  match (2 * (n mod d) ?= d)%Z with
  | Lt => q
  | Gt => (q + 1)%Z
  | Eq => if Z.even q then q else (q + 1)%Z
  end.

(** [n / d / 2^e] as a fraction. *)
Definition shifted (n d e : Z) : Z * Z :=
  if (0 <=? e)%Z then (n, d * 2 ^ e)%Z else (n * 2 ^ (- e), d)%Z.

(** The greatest [k] with [2^k <= n / d]. *)
Definition floorLog2 (n d : Z) : Z :=
  let k := (Z.log2 n - Z.log2 d)%Z in
  let (n', d') := shifted n d k in
  if (d' <=? n')%Z then k else (k - 1)%Z.

(** The Number value for the positive rational [n / d]: the nearest
    double, with 53 significant bits at an exponent of at least -1074, the
    one with the even significand of two that are equally near, and
    infinity from 2^1024 on. *)
Definition roundToDouble (n d : Z) : double :=
  let e := Z.max (floorLog2 n d - 52) (-1074) in
  let (n', d') := shifted n d e in
  let z := (roundHalfEven n' d' * 2 ^ (e + 1074))%Z in
  if (z <? 2 ^ 2098)%Z then Finite z else Infinite false.

(** The Number value for [digits * 10^exponent], [0 <= digits]. *)
Definition decimalValue (digits exponent : Z) : double :=
  if (digits =? 0)%Z then Finite 0
  else if (0 <=? exponent)%Z then roundToDouble (digits * 10 ^ exponent) 1
  else roundToDouble digits (10 ^ (- exponent)).

Definition isDigit (c : N) : bool := ((0x30 <=? c) && (c <=? 0x39))%N.

(** The value of a digit, decimal or one of [a-f], [A-F]. *)
Definition digitValue (c : N) : Z :=
  if isDigit c then (Z.of_N c - 0x30)%Z
  else if ((0x61 <=? c) && (c <=? 0x66))%N then (Z.of_N c - 0x61 + 10)%Z
  else (Z.of_N c - 0x41 + 10)%Z.

Definition isRadixDigit (radix : Z) (c : N) : bool :=
  (isDigit c || (0x61 <=? c) && (c <=? 0x66) || (0x41 <=? c) && (c <=? 0x46))%N
  && (digitValue c <? radix)%Z.

Definition valueOf (radix : Z) (ds : jsstring) : Z :=
  fold_left (fun acc c => (radix * acc + digitValue c)%Z) ds 0%Z.

(** The longest beginning of [s] made of [p], and the rest. *)
Fixpoint span (p : N -> bool) (s : jsstring) : jsstring * jsstring :=
  match s with
  | [] => ([], [])
  | c :: s' =>
      if p c then let (a, b) := span p s' in (c :: a, b) else ([], s)
  end.

(** An optional exponent part, [e] or [E], an optional sign and digits,
    that ends the literal: its value, [None] for any other text. *)
Definition exponentPart (s : jsstring) : option Z :=
  match s with
  | [] => Some 0%Z
  | c :: r =>
      if ((c =? 0x65) || (c =? 0x45))%N then
        let (negative, ds) :=
          match r with
          | c' :: r' =>
              if (c' =? 0x2B)%N then (false, r')
              else if (c' =? 0x2D)%N then (true, r')
              else (false, r)
          | [] => (false, r)
          end in
        if truthy ds && forallb isDigit ds
        then Some (if negative then (- valueOf 10 ds)%Z else valueOf 10 ds)
        else None
      else None
  end.

(** An unsigned decimal literal: [Infinity], or digits with an optional
    fraction and an optional exponent, at least one digit before or after
    the point. *)
Definition unsignedDecimal (u : jsstring) : option double :=
  if jseq u (js "Infinity") then Some (Infinite false)
  else
    let (ip, r1) := span isDigit u in
    let (fp, r2) :=
      match r1 with
      | c :: r => if (c =? 0x2E)%N then span isDigit r else ([], r1)
      | [] => ([], [])
      end in
    match ip ++ fp, exponentPart r2 with
    | _ :: _, Some x =>
        Some (decimalValue (valueOf 10 (ip ++ fp)) (x - Z.of_nat (length fp)))
    | _, _ => None
    end.

(** The radix that the letter after a leading [0] selects. *)
Definition radixOf (c : N) : option Z :=
  if ((c =? 0x78) || (c =? 0x58))%N then Some 16%Z
  else if ((c =? 0x6F) || (c =? 0x4F))%N then Some 8%Z
  else if ((c =? 0x62) || (c =? 0x42))%N then Some 2%Z
  else None.

(** [Number(s)] for a string, [None] for NaN: white space and line
    terminators around the literal are dropped; the empty text is 0; a
    literal is a hexadecimal, octal or binary integer without a sign, or a
    decimal literal with an optional sign; any other text is NaN.  A
    literal of more than 20 significant digits is rounded exactly, as the
    engines do. *)
Definition Number (s : jsstring) : option double :=
  match trim s with
  | [] => Some (Finite 0)
  | c :: u =>
      if (c =? 0x2B)%N then unsignedDecimal u
      else if (c =? 0x2D)%N then option_map negate (unsignedDecimal u)
      else
        match (if (c =? 0x30)%N then
                 match u with
                 | r :: ds => option_map (fun radix => (radix, ds)) (radixOf r)
                 | [] => None
                 end
               else None) with
        | Some (radix, ds) =>
            if truthy ds && forallb (isRadixDigit radix) ds
            then Some (decimalValue (valueOf radix ds) 0)
            else None
        | None => unsignedDecimal (c :: u)
        end
  end.

(** The sign of [x - y], the only thing [sort] reads of a comparator's
    result: 0 for a zero and for NaN, which the difference is when [x] or
    [y] is NaN and when both are the same infinity. *)
Definition subSign (x y : option double) : Z :=
  match x, y with
  | Some (Finite a), Some (Finite b) => Z.sgn (a - b)
  | Some (Finite _), Some (Infinite negative) => if negative then 1%Z else (-1)%Z
  | Some (Infinite negative), Some (Finite _) => if negative then (-1)%Z else 1%Z
  | Some (Infinite negative), Some (Infinite negative') =>
      if Bool.eqb negative negative' then 0%Z
      else if negative then (-1)%Z else 1%Z
  | _, _ => 0%Z
  end.

End Js.
Import Js.

(* ===================================================================== *)
(** ** [TextDecoder.decode(value)] *)
(* ===================================================================== *)

Module TextDecoder.

(** The state of the UTF-8 decoder: code point, bytes seen, bytes needed,
    lower and upper boundary. *)
Record state : Type := mkState {
  code_point : N;
  bytes_seen : N;
  bytes_needed : N;
  lower : N;
  upper : N
}.

Definition initial : state := mkState 0 0 0 0x80 0xBF.

Definition REPLACEMENT : N := 0xFFFD%N.
Definition BOM : N := 0xFEFF%N.

Definition between (lo hi b : N) : bool := ((lo <=? b) && (b <=? hi))%N.

(** A byte read when no bytes are needed. *)
Definition lead (b : N) : state * list N :=
  if between 0x00 0x7F b then (initial, [b])
  else if between 0xC2 0xDF b then
    (mkState (N.land b 0x1F) 0 1 0x80 0xBF, [])
  else if between 0xE0 0xEF b then
    (mkState (N.land b 0xF) 0 2
       (if N.eqb b 0xE0 then 0xA0 else 0x80)
       (if N.eqb b 0xED then 0x9F else 0xBF), [])
  else if between 0xF0 0xF4 b then
    (mkState (N.land b 0x7) 0 3
       (if N.eqb b 0xF0 then 0x90 else 0x80)
       (if N.eqb b 0xF4 then 0x8F else 0xBF), [])
  else (initial, [REPLACEMENT]).

(** One byte of the queue: the new state and the code points emitted.  A
    byte outside the boundaries ends the sequence with an error and is
    read again as a lead byte. *)
Definition step (st : state) (b : N) : state * list N :=
  if N.eqb (bytes_needed st) 0 then lead b
  else if negb (between (lower st) (upper st) b) then
    let (st', out) := lead b in (st', REPLACEMENT :: out)
  else
    let cp := N.lor (N.shiftl (code_point st) 6) (N.land b 0x3F) in
    let seen := (bytes_seen st + 1)%N in
    if N.eqb seen (bytes_needed st) then (initial, [cp])
    else (mkState cp seen (bytes_needed st) 0x80 0xBF, []).

(** The whole queue, then end-of-queue: a sequence left incomplete is an
    error. *)
Fixpoint run (st : state) (bs : list byte) : list N :=
  match bs with
  | [] => if N.eqb (bytes_needed st) 0 then [] else [REPLACEMENT]
  | b :: bs' =>
      let (st', out) := step st (Byte.to_N b) in
      out ++ run st' bs'
  end.

(** A code point as UTF-16 code units. *)
Definition utf16 (cp : N) : list N :=
  if (cp <? 0x10000)%N then [cp]
  else
    let v := (cp - 0x10000)%N in
    [(0xD800 + N.shiftr v 10)%N; (0xDC00 + N.land v 0x3FF)%N].

(** A leading byte order mark is not part of the output. *)
Definition stripBOM (cps : list N) : list N :=
  match cps with
  | c :: rest => if N.eqb c BOM then rest else cps
  | [] => []
  end.

(** [decoder.decode(value)] without the [stream] option: every call starts
    a fresh decoder and flushes it at the end of [value]. *)
Definition decode (value : list byte) : jsstring :=
  flat_map utf16 (stripBOM (run initial value)).

(** A byte that is a character of its own. *)
Definition isAscii (b : byte) : bool := (Byte.to_N b <? 0x80)%N.

End TextDecoder.

(* ===================================================================== *)
(** ** [ChatInterface] *)
(* ===================================================================== *)

Module ChatInterface.

(** *** The data model *)

(** A value of type [any]: a JSON tree.  A number keeps its literal. *)
Inductive json : Type :=
| JNull
| JBool (b : bool)
| JNumber (literal : jsstring)
| JString (s : jsstring)
| JArray (items : list json)
| JObject (fields : list (jsstring * json)).

Inductive Role : Type := user | assistant.

Definition Role_eqb (a b : Role) : bool :=
  match a, b with
  | user, user | assistant, assistant => true
  | _, _ => false
  end.

(** [interface ToolCall] *)
Record ToolFunction : Type := {
  name : jsstring;
  arguments : jsstring
}.

Record ToolCall : Type := {
  call_id : jsstring;
  function : ToolFunction
}.

(** [interface ToolResult]; the gallery also reads [url]. *)
Record ToolResult : Type := {
  screenshot : option jsstring;
  url : option jsstring;
  repository : option json;
  commits : option (list json);
  issues : option (list json);
  pullRequests : option (list json)
}.

(** [interface Message]; an optional field that is absent is [None]. *)
Record Message : Type := {
  id : jsstring;
  role : Role;
  content : jsstring;
  toolCalls : option (list ToolCall);
  toolResults : option (list ToolResult)
}.

(** The payload of a record, once [JSON.parse] has decoded it: the [type]
    tag selects the fields that the client reads, and the fields have the
    types of the interfaces.  [EvContent] carries the string that [+=]
    appends, [EvDone] the two lists when present and truthy, [EvError] the
    message of [new Error(data.error)]; a payload with any other [type] is
    [EvOther]. *)
Inductive StreamEvent : Type :=
| EvContent (content : jsstring)
| EvToolCall (toolCall : ToolCall)
| EvToolResult (result : ToolResult)
| EvDone (toolCalls : option (list ToolCall))
         (toolResults : option (list ToolResult))
| EvError (error : jsstring)
| EvOther.

(** What the [try] of a line throws: [JSON.parse] (or reading [data.type]
    of [null]) failing, or an [Error] with a message. *)
Inductive Thrown : Type :=
| DecodeFailure
| Error (message : jsstring).

(** The lines written to the console. *)
Inductive LogEntry : Type :=
| ReceivedEvent (data : StreamEvent)
| ReceivedFinalEvent (data : StreamEvent)
| ErrorFromServer (error : jsstring)
| ErrorParsingSSE (e : Thrown) (line : jsstring)
| ErrorParsingFinalSSE (e : Thrown)
| BodyNotReadable.

(** The state of the component, the locals [assistantContent] and
    [buffer] of [handleSubmit], and the console. *)
Record Client : Type := {
  messages : list Message;
  input : jsstring;
  isLoading : bool;
  currentToolCalls : list ToolCall;
  currentToolResults : list ToolResult;
  assistantContent : jsstring;
  buffer : jsstring;
  console : list LogEntry
}.

Definition setMessages (f : list Message -> list Message) (st : Client) : Client :=
  {| messages := f (messages st); input := input st;
     isLoading := isLoading st;
     currentToolCalls := currentToolCalls st;
     currentToolResults := currentToolResults st;
     assistantContent := assistantContent st; buffer := buffer st;
     console := console st |}.

Definition setInput (s : jsstring) (st : Client) : Client :=
  {| messages := messages st; input := s;
     isLoading := isLoading st;
     currentToolCalls := currentToolCalls st;
     currentToolResults := currentToolResults st;
     assistantContent := assistantContent st; buffer := buffer st;
     console := console st |}.

Definition setIsLoading (b : bool) (st : Client) : Client :=
  {| messages := messages st; input := input st;
     isLoading := b;
     currentToolCalls := currentToolCalls st;
     currentToolResults := currentToolResults st;
     assistantContent := assistantContent st; buffer := buffer st;
     console := console st |}.

Definition setCurrentToolCalls (f : list ToolCall -> list ToolCall) (st : Client) : Client :=
  {| messages := messages st; input := input st;
     isLoading := isLoading st;
     currentToolCalls := f (currentToolCalls st);
     currentToolResults := currentToolResults st;
     assistantContent := assistantContent st; buffer := buffer st;
     console := console st |}.

Definition setCurrentToolResults (f : list ToolResult -> list ToolResult) (st : Client) : Client :=
  {| messages := messages st; input := input st;
     isLoading := isLoading st;
     currentToolCalls := currentToolCalls st;
     currentToolResults := f (currentToolResults st);
     assistantContent := assistantContent st; buffer := buffer st;
     console := console st |}.

Definition setAssistantContent (s : jsstring) (st : Client) : Client :=
  {| messages := messages st; input := input st;
     isLoading := isLoading st;
     currentToolCalls := currentToolCalls st;
     currentToolResults := currentToolResults st;
     assistantContent := s; buffer := buffer st;
     console := console st |}.

Definition setBuffer (s : jsstring) (st : Client) : Client :=
  {| messages := messages st; input := input st;
     isLoading := isLoading st;
     currentToolCalls := currentToolCalls st;
     currentToolResults := currentToolResults st;
     assistantContent := assistantContent st; buffer := s;
     console := console st |}.

Definition log (e : LogEntry) (st : Client) : Client :=
  {| messages := messages st; input := input st;
     isLoading := isLoading st;
     currentToolCalls := currentToolCalls st;
     currentToolResults := currentToolResults st;
     assistantContent := assistantContent st; buffer := buffer st;
     console := console st ++ [e] |}.

(** How a block ends: normally, or by throwing. *)
Inductive Completion (E : Type) : Type :=
| Normal (st : Client)
| Throw (st : Client) (e : E).

Arguments Normal {E} st.
Arguments Throw {E} st e.

(** The state a completion leaves. *)
Definition stateOf {E : Type} (c : Completion E) : Client :=
  match c with
  | Normal st => st
  | Throw st _ => st
  end.

(** What the conversation shows of a client: its state without the
    console and without the local [buffer]. *)
Definition shown (st : Client) : Client :=
  {| messages := messages st; input := input st;
     isLoading := isLoading st;
     currentToolCalls := currentToolCalls st;
     currentToolResults := currentToolResults st;
     assistantContent := assistantContent st; buffer := [];
     console := [] |}.

(** [x || []] for an optional list. *)
Definition orEmpty {A : Type} (x : option (list A)) : list A :=
  match x with Some l => l | None => [] end.

(** *** The stream assembler of [handleSubmit] *)

Section Assembler.

Variable JSON_parse : jsstring -> option StreamEvent.
Variable assistantId : jsstring.

(** The updaters passed to [setMessages]: [prev.map] over the message
    with the assistant's id. *)
Definition withContent (c : jsstring) (msg : Message) : Message :=
  if jseq (id msg) assistantId
  then {| id := id msg; role := role msg; content := c;
          toolCalls := toolCalls msg; toolResults := toolResults msg |}
  else msg.

Definition withToolCall (tc : ToolCall) (msg : Message) : Message :=
  if jseq (id msg) assistantId
  then {| id := id msg; role := role msg; content := content msg;
          toolCalls := Some (orEmpty (toolCalls msg) ++ [tc]);
          toolResults := toolResults msg |}
  else msg.

Definition withToolResult (r : ToolResult) (msg : Message) : Message :=
  if jseq (id msg) assistantId
  then {| id := id msg; role := role msg; content := content msg;
          toolCalls := toolCalls msg;
          toolResults := Some (orEmpty (toolResults msg) ++ [r]) |}
  else msg.

Definition withDone (tcs : option (list ToolCall))
    (trs : option (list ToolResult)) (msg : Message) : Message :=
  if jseq (id msg) assistantId
  then {| id := id msg; role := role msg; content := content msg;
          toolCalls := Some (orEmpty tcs);
          toolResults := Some (orEmpty trs) |}
  else msg.

(** The branches on [data.type] inside the read loop. *)
Definition applyEvent (st : Client) (data : StreamEvent) : Completion Thrown :=
  match data with
  | EvContent c =>
      let st := setAssistantContent (assistantContent st ++ c) st in
      Normal (setMessages (List.map (withContent (assistantContent st))) st)
  | EvToolCall tc =>
      let st := setCurrentToolCalls (fun prev => prev ++ [tc]) st in
      Normal (setMessages (List.map (withToolCall tc)) st)
  | EvToolResult r =>
      let st := setCurrentToolResults (fun prev => prev ++ [r]) st in
      Normal (setMessages (List.map (withToolResult r)) st)
  | EvDone tcs trs =>
      Normal (setMessages (List.map (withDone tcs trs)) st)
  | EvError e =>
      Throw (log (ErrorFromServer e) st) (Error e)
  | EvOther => Normal st
  end.

(** The branches on [data.type] in the pass over the remaining buffer. *)
Definition applyFinalEvent (st : Client) (data : StreamEvent) : Completion Thrown :=
  match data with
  | EvContent c =>
      let st := setAssistantContent (assistantContent st ++ c) st in
      Normal (setMessages (List.map (withContent (assistantContent st))) st)
  | EvDone tcs trs =>
      Normal (setMessages (List.map (withDone tcs trs)) st)
  | _ => Normal st
  end.

(** The body of the [try] of one line, in the loop and in the final pass. *)
Definition tryLine (st : Client) (line : jsstring) : Completion Thrown :=
  let jsonStr := trim (slice 6 line) in
  if negb (truthy jsonStr) then Normal st
  else match JSON_parse jsonStr with
       | None => Throw st DecodeFailure
       | Some data => applyEvent (log (ReceivedEvent data) st) data
       end.

Definition tryFinalLine (st : Client) (line : jsstring) : Completion Thrown :=
  let jsonStr := trim (slice 6 line) in
  if negb (truthy jsonStr) then Normal st
  else match JSON_parse jsonStr with
       | None => Throw st DecodeFailure
       | Some data => applyFinalEvent (log (ReceivedFinalEvent data) st) data
       end.

(** One iteration of [for (const line of lines)]: the [catch] of the line
    logs whatever its [try] threw and the loop goes on. *)
Definition processLine (st : Client) (line : jsstring) : Client :=
  if jseq (trim line) [] then st
  else if startsWith (js "data: ") line then
    match tryLine st line with
    | Normal st' => st'
    | Throw st' e => log (ErrorParsingSSE e line) st'
    end
  else st.

Definition processFinalLine (st : Client) (line : jsstring) : Client :=
  if jseq (trim line) [] then st
  else if startsWith (js "data: ") line then
    match tryFinalLine st line with
    | Normal st' => st'
    | Throw st' e => log (ErrorParsingFinalSSE e) st'
    end
  else st.

(** A chunk, once decoded: [buffer += text], split, keep what [pop]
    returns as the new buffer, process the lines before it. *)
Definition onText (st : Client) (text : jsstring) : Client :=
  let lines := split (buffer st ++ text) in
  let st := setBuffer (last lines []) st in
  fold_left processLine (removelast lines) st.

Definition onChunk (st : Client) (value : list byte) : Client :=
  onText st (TextDecoder.decode value).

(** [done]: the pass over a buffer that is not empty. *)
Definition onDone (st : Client) : Client :=
  if truthy (buffer st)
  then fold_left processFinalLine (split (buffer st)) st
  else st.

(** [while (true)] over the reader: the chunks that [reader.read()]
    resolves to, then [done], or a rejection with an error message. *)
Fixpoint readLoop (st : Client) (values : list (list byte))
    (fail : option jsstring) : Completion jsstring :=
  match values with
  | [] =>
      match fail with
      | None => Normal (onDone st)
      | Some message => Throw st message
      end
  | value :: rest => readLoop (onChunk st value) rest fail
  end.

(** The same loop over chunks that are already decoded, for a stream that
    closes. *)
Fixpoint readTexts (st : Client) (texts : list jsstring) : Client :=
  match texts with
  | [] => onDone st
  | text :: rest => readTexts (onText st text) rest
  end.

(** A line is a record that decodes to [data]: it starts with the marker,
    its payload is not empty and [JSON.parse] returns [data]. *)
Definition decodesTo (line : jsstring) (data : StreamEvent) : Prop :=
  startsWith (js "data: ") line = true
  /\ truthy (trim (slice 6 line)) = true
  /\ JSON_parse (trim (slice 6 line)) = Some data.

(** A line is a malformed record: [JSON.parse] throws on its payload. *)
Definition malformed (line : jsstring) : Prop :=
  startsWith (js "data: ") line = true
  /\ truthy (trim (slice 6 line)) = true
  /\ JSON_parse (trim (slice 6 line)) = None.

(** *** The read loop as a transition system *)

(** A configuration of [while (true)]: the client state and what the
    reader still holds, or the completion of the loop. *)
Inductive Config : Type :=
| Reading (st : Client) (values : list (list byte)) (fail : option jsstring)
| Finished (c : Completion jsstring).

(** One [await reader.read()] and the iteration it starts. *)
Inductive step : Config -> Config -> Prop :=
| step_value : forall st value rest fail,
    step (Reading st (value :: rest) fail)
         (Reading (onChunk st value) rest fail)
| step_done : forall st,
    step (Reading st [] None) (Finished (Normal (onDone st)))
| step_rejected : forall st message,
    step (Reading st [] (Some message)) (Finished (Throw st message)).

Inductive steps : Config -> Config -> Prop :=
| steps_refl : forall c, steps c c
| steps_step : forall c1 c2 c3, step c1 c2 -> steps c2 c3 -> steps c1 c3.

End Assembler.

(** *** [handleSubmit] *)

(** One entry of the request's [messages]. *)
Record ChatTurn : Type := {
  turn_role : Role;
  turn_content : jsstring
}.

(** [(m) => ({ role: m.role, content: m.content })] *)
Definition project (m : Message) : ChatTurn :=
  {| turn_role := role m; turn_content := content m |}.

(** A response body: the chunks it yields, and whether reading fails
    after them. *)
Record Stream : Type := {
  chunks : list (list byte);
  failure : option jsstring
}.

Record Response : Type := {
  ok : bool;
  body : option Stream
}.

Inductive FetchResult : Type :=
| Rejected (message : jsstring)
| Resolved (response : Response).

(** What [handleSubmit] reads from its environment: the three values of
    [Date.now()] and the outcome of [fetch]. *)
Record Env : Type := {
  nowUser : N;
  fetch : FetchResult;
  nowAssistant : N;
  nowError : N
}.

Section HandleSubmit.

Variable JSON_parse : jsstring -> option StreamEvent.

Definition userMessage (env : Env) (st : Client) : Message :=
  {| id := toString (nowUser env); role := user; content := input st;
     toolCalls := None; toolResults := None |}.

Definition assistantMessage (env : Env) : Message :=
  {| id := toString (nowAssistant env); role := assistant; content := [];
     toolCalls := Some []; toolResults := Some [] |}.

Definition errorMessage (env : Env) (message : jsstring) : Message :=
  {| id := toString (nowError env); role := assistant;
     content := js "Error: " ++ message;
     toolCalls := None; toolResults := None |}.

(** The body of the request: the messages of the render plus the new one. *)
Definition requestBody (env : Env) (st : Client) : list ChatTurn :=
  List.map project (messages st ++ [userMessage env st]).

(** The outer [try] block, from [fetch] on. *)
Definition tryFetch (env : Env) (st : Client) : Completion jsstring :=
  match fetch env with
  | Rejected message => Throw st message
  | Resolved response =>
      if negb (ok response) then Throw st (js "Failed to get response")
      else
        let assistantId := toString (nowAssistant env) in
        let st := setAssistantContent [] st in
        let st := setMessages (fun prev => prev ++ [assistantMessage env]) st in
        match body response with
        | Some stream =>
            readLoop JSON_parse assistantId (setBuffer [] st)
              (chunks stream) (failure stream)
        | None => Normal (log BodyNotReadable st)
        end
  end.

(** [handleSubmit]: the state it leaves and the request it sent. *)
Definition handleSubmit (env : Env) (st : Client) : Client * option (list ChatTurn) :=
  if negb (truthy (trim (input st))) || isLoading st then (st, None)
  else
    let request := requestBody env st in
    let st1 := setMessages (fun prev => prev ++ [userMessage env st]) st in
    let st1 := setInput [] st1 in
    let st1 := setIsLoading true st1 in
    let st1 := setCurrentToolCalls (fun _ => []) st1 in
    let st1 := setCurrentToolResults (fun _ => []) st1 in
    let st2 :=
      match tryFetch env st1 with
      | Normal st' => st'
      | Throw st' message =>
          setMessages (fun prev => prev ++ [errorMessage env message]) st'
      end in
    let st3 := setIsLoading false st2 in
    let st3 := setCurrentToolCalls (fun _ => []) st3 in
    let st3 := setCurrentToolResults (fun _ => []) st3 in
    (st3, Some request).

End HandleSubmit.

(** The client when the read loop starts: the question and the empty
    answer appended, the form cleared, the locals initialised. *)
Definition started (env : Env) (st : Client) : Client :=
  let st1 := setMessages (fun prev => prev ++ [userMessage env st]) st in
  let st1 := setInput [] st1 in
  let st1 := setIsLoading true st1 in
  let st1 := setCurrentToolCalls (fun _ => []) st1 in
  let st1 := setCurrentToolResults (fun _ => []) st1 in
  let st1 := setAssistantContent [] st1 in
  let st1 := setMessages (fun prev => prev ++ [assistantMessage env]) st1 in
  setBuffer [] st1.

(** The [finally] block. *)
Definition settled (st : Client) : Client :=
  setCurrentToolResults (fun _ => [])
    (setCurrentToolCalls (fun _ => []) (setIsLoading false st)).

(** *** The effect on [messages] and the tool indicator *)

(** [messages.some((msg) => msg.toolResults?.some((r) => r.commits &&
    Array.isArray(r.commits) && r.commits.length > 0))] *)
Definition hasCommits (msgs : list Message) : bool :=
  existsb (fun msg =>
             match toolResults msg with
             | Some results =>
                 existsb (fun r => match commits r with
                                   | Some (_ :: _) => true
                                   | _ => false
                                   end) results
             | None => false
             end) msgs.

(** The effect scrolls to the bottom when no message holds commits and
    [isNearBottom()] answers [nearBottom]. *)
Definition scrollsToBottom (msgs : list Message) (nearBottom : bool) : bool :=
  negb (hasCommits msgs) && nearBottom.

(** [{isLoading && currentToolCalls.length > 0 && <ToolUsageIndicator
    toolCalls={currentToolCalls} />}]: the calls the indicator is given. *)
Definition indicator (st : Client) : option (list ToolCall) :=
  if isLoading st && (0 <? length (currentToolCalls st))
  then Some (currentToolCalls st)
  else None.

(** The text that a line adds to the answer [assistantContent]: the
    content of a content record, nothing for any other line. *)
Definition contentOf (JSON_parse : jsstring -> option StreamEvent)
    (line : jsstring) : jsstring :=
  if jseq (trim line) [] then []
  else if startsWith (js "data: ") line then
    if truthy (trim (slice 6 line)) then
      match JSON_parse (trim (slice 6 line)) with
      | Some (EvContent c) => c
      | _ => []
      end
    else []
  else [].

(** The message at place [k] is the answer and shows the text
    accumulated so far. *)
Definition answerAt (aid : jsstring) (k : nat) (st : Client) : Prop :=
  exists m, nth_error (messages st) k = Some m
            /\ id m = aid /\ role m = assistant
            /\ content m = assistantContent st.

(** The message at place [k] is the answer and holds the tool calls and
    results that the indicator's state holds. *)
Definition toolsAt (aid : jsstring) (k : nat) (st : Client) : Prop :=
  exists m, nth_error (messages st) k = Some m
            /\ id m = aid
            /\ toolCalls m = Some (currentToolCalls st)
            /\ toolResults m = Some (currentToolResults st).

(** The carriage return. *)
Definition CR : N := 0x0D%N.

(** A line carries a done record. *)
Definition isDone (JSON_parse : jsstring -> option StreamEvent)
    (line : jsstring) : bool :=
  negb (jseq (trim line) [])
  && startsWith (js "data: ") line
  && truthy (trim (slice 6 line))
  && match JSON_parse (trim (slice 6 line)) with
     | Some (EvDone _ _) => true
     | _ => false
     end.

End ChatInterface.
Import ChatInterface.

(* ===================================================================== *)
(** ** [ToolUsageIndicator] *)
(* ===================================================================== *)

Module ToolUsageIndicator.

Inductive Icon : Type := Github | Camera | Loader2.

Definition getToolIcon (toolName : jsstring) : Icon :=
  if includes (js "github") toolName || includes (js "repo") toolName
  then Github
  else if includes (js "screenshot") toolName then Camera
  else Loader2.

Definition getToolLabel (toolName : jsstring) : jsstring :=
  if includes (js "github") toolName || includes (js "repo") toolName
  then js "Fetching GitHub data"
  else if includes (js "screenshot") toolName then js "Taking screenshot"
  else js "Executing tool".

(** One row of the indicator: icon, label and the name of the tool. *)
Definition row (toolCall : ToolCall) : Icon * jsstring * jsstring :=
  (getToolIcon (name (function toolCall)),
   getToolLabel (name (function toolCall)),
   name (function toolCall)).

Definition rows (toolCalls : list ToolCall) : list (Icon * jsstring * jsstring) :=
  List.map row toolCalls.

End ToolUsageIndicator.

(* ===================================================================== *)
(** ** [MCPStatus] *)
(* ===================================================================== *)

Module MCPStatus.

(** [interface MCPStatus] *)
Record Status : Type := {
  github : bool;
  playwright : bool
}.

Definition down : Status := {| github := false; playwright := false |}.

(** The state of the component, and the number of lines it has written
    to the console. *)
Record Panel : Type := {
  status : Status;
  loading : bool;
  logged : nat
}.

Definition initial : Panel := {| status := down; loading := true; logged := 0 |}.

(** How one health check ends: [fetch] rejects; the response is not ok;
    reading its JSON fails; or the body is read, with [mcp_servers] when it
    is present and truthy. *)
Inductive Health : Type :=
| Unreachable
| NotOk
| Unreadable
| Report (mcp_servers : option Status).

(** [checkStatus], from the completion of its [fetch] on. *)
Definition checkStatus (p : Panel) (h : Health) : Panel :=
  match h with
  | Report (Some servers) =>
      {| status := servers; loading := false; logged := logged p |}
  | Report None | NotOk =>
      {| status := down; loading := false; logged := logged p |}
  | Unreachable | Unreadable =>
      {| status := down; loading := false; logged := S (logged p) |}
  end.

(** What the panel renders: the spinner, or one row per server with its
    name and whether it is shown as up. *)
Inductive View : Type :=
| Checking
| Servers (rows : list (jsstring * bool)).

Definition render (p : Panel) : View :=
  if loading p then Checking
  else Servers [(js "GitHub MCP", github (status p));
                (js "Playwright MCP", playwright (status p))].

(** The panel after the checks that have completed, in order. *)
Definition poll (checks : list Health) : Panel :=
  fold_left checkStatus checks initial.

End MCPStatus.

(* ===================================================================== *)
(** ** [MessageList]: the result tables of an assistant message *)
(* ===================================================================== *)

Module MessageList.

(** A rendered table: the number in its heading and the rows of its body,
    each row with its [key] and the entry it shows. *)
Record Table : Type := {
  headingCount : nat;
  tableRows : option (list (nat * json))
}.

(** The tables under one message. *)
Record Tables : Type := {
  commitsTable : option Table;
  issuesTable : option Table;
  pullRequestsTable : option Table
}.

Definition noTables : Tables :=
  {| commitsTable := None; issuesTable := None; pullRequestsTable := None |}.

Definition isSome {A : Type} (x : option A) : bool :=
  match x with Some _ => true | None => false end.

(** [.map((entry, idx) => ...)] *)
Definition indexed {A : Type} (l : list A) : list (nat * A) :=
  combine (seq 0 (length l)) l.

(** [(a, b) => Number(b.id) - Number(a.id)], as the sign that [sort]
    reads; a NaN counts as 0. *)
Definition compareIds (a b : Message) : Z :=
  subSign (Number (id b)) (Number (id a)).

(** A stable sort: an entry moves behind the entries that the comparator
    puts first, and stays before the others. *)
Fixpoint insertSorted (x : Message) (l : list Message) : list Message :=
  match l with
  | [] => [x]
  | y :: l' =>
      if (0 <? compareIds x y)%Z then y :: insertSorted x l' else x :: l
  end.

Definition stableSort (l : list Message) : list Message :=
  fold_right insertSorted [] l.

(** The comparator orders a list consistently when no id is NaN, or when
    every comparison is a tie; a NaN next to two ids that differ ties with
    both. *)
Definition numeric (l : list Message) : bool :=
  forallb (fun m => isSome (Number (id m))) l.

Definition tied (l : list Message) : bool :=
  forallb (fun a => forallb (fun b => (compareIds a b =? 0)%Z) l) l.

Definition consistent (l : list Message) : bool := numeric l || tied l.

(** [results.some((r) => r.f && Array.isArray(r.f) && r.f.length > 0)] *)
Definition hasData (f : ToolResult -> option (list json)) (results : list ToolResult) : bool :=
  existsb (fun r => match f r with Some (_ :: _) => true | _ => false end) results.

Definition hasCommits : list ToolResult -> bool := hasData commits.
Definition hasPullRequests : list ToolResult -> bool := hasData pullRequests.
Definition hasIssues : list ToolResult -> bool := hasData issues.

(** [results.find((r) => r.f)?.f] *)
Definition findData (f : ToolResult -> option (list json)) (results : list ToolResult)
  : option (list json) :=
  match find (fun r => isSome (f r)) results with
  | Some r => f r
  | None => None
  end.

(** The heading and the body of a table over the field [f]:
    [data.length || 0] and [data.slice(0, 50).map(...)]. *)
Definition tableOf (f : ToolResult -> option (list json)) (results : list ToolResult) : Table :=
  {| headingCount := match findData f results with
                     | Some data => length data
                     | None => 0
                     end;
     tableRows := match findData f results with
                  | Some data => Some (indexed (firstn 50 data))
                  | None => None
                  end |}.

Definition askedForCommits (userContent : jsstring) : bool :=
  includes (js "commit") userContent
  || includes (js "commit history") userContent
  || includes (js "commit frequency") userContent.

Definition askedForPullRequests (userContent : jsstring) : bool :=
  includes (js "pull request") userContent
  || includes (js "pr") userContent
  || includes (js "pull requests") userContent.

Definition askedForIssues (userContent : jsstring) : bool :=
  includes (js "issue") userContent
  && negb (includes (js "pull request") userContent).

Definition isGeneralAnalysis (userContent : jsstring) : bool :=
  includes (js "analyze") userContent
  || includes (js "show me") userContent
  || includes (js "repository info") userContent
  || includes (js "repository data") userContent.

Definition shouldShowCommits (results : list ToolResult) (userContent : jsstring) : bool :=
  hasCommits results
  && (askedForCommits userContent
      || (isGeneralAnalysis userContent
          && negb (askedForPullRequests userContent)
          && negb (askedForIssues userContent))).

Definition shouldShowIssues (userContent : jsstring) : bool :=
  askedForIssues userContent
  || (isGeneralAnalysis userContent
      && negb (askedForPullRequests userContent)).

Definition shouldShowPullRequests (userContent : jsstring) : bool :=
  askedForPullRequests userContent
  || (isGeneralAnalysis userContent
      && negb (askedForIssues userContent)).


(** A table over the field [f] shows the first 50 entries: its heading
    counts the whole list that [find] returns, its rows are the first 50
    entries of that list in order, keyed by their index. *)
Definition showsFirst50 (f : ToolResult -> option (list json))
    (message : Message) (t : Table) : Prop :=
  exists results data rows,
    toolResults message = Some results
    /\ findData f results = Some data
    /\ headingCount t = length data
    /\ tableRows t = Some rows
    /\ List.map snd rows = firstn 50 data
    /\ List.map fst rows = seq 0 (length rows)
    /\ length rows = Nat.min 50 (length data).

(** [messages.filter((m) => m.role === "user" && m.id <= message.id)] *)
Definition candidates (messages : list Message) (message : Message) : list Message :=
  filter (fun m => Role_eqb (role m) user && jsle (id m) (id message)) messages.

Section Render.

Variable toLowerCase : jsstring -> jsstring.

(** The order that the engine gives to a list which the comparator does
    not order consistently: the language leaves it to the implementation. *)
Variable engineSort : list Message -> list Message.

(** [.sort((a, b) => Number(b.id) - Number(a.id))]: the sort is stable,
    so a list that the comparator orders consistently has one sorted
    order. *)
Definition sort (l : list Message) : list Message :=
  if consistent l then stableSort l else engineSort l.

(** The most recent user message up to [message], by id:
    [messages.filter(...).sort(...)[0]]. *)
Definition userMessage (messages : list Message) (message : Message) : option Message :=
  hd_error
    (sort (filter (fun m => Role_eqb (role m) user && jsle (id m) (id message))
             messages)).

(** [userMessage?.content?.toLowerCase() || ""] *)
Definition userContent (messages : list Message) (message : Message) : jsstring :=
  match userMessage messages message with
  | Some m => toLowerCase (content m)
  | None => []
  end.

(** The three blocks of the tool results, each [null] or a table. *)
Definition commitsBlock (messages : list Message) (message : Message)
    (results : list ToolResult) : option Table :=
  if shouldShowCommits results (userContent messages message)
  then Some (tableOf commits results)
  else None.

Definition issuesBlock (messages : list Message) (message : Message)
    (results : list ToolResult) : option Table :=
  if negb (hasIssues results) then None
  else if shouldShowIssues (userContent messages message)
  then Some (tableOf issues results)
  else None.

Definition pullRequestsBlock (messages : list Message) (message : Message)
    (results : list ToolResult) : option Table :=
  if negb (hasPullRequests results) then None
  else if shouldShowPullRequests (userContent messages message)
  then Some (tableOf pullRequests results)
  else None.

(** The tables shown under one message of the list: none for a user
    message, none without tool results. *)
Definition tablesOf (messages : list Message) (message : Message) : Tables :=
  match role message with
  | user => noTables
  | assistant =>
      match toolResults message with
      | Some ((_ :: _) as results) =>
          {| commitsTable := commitsBlock messages message results;
             issuesTable := issuesBlock messages message results;
             pullRequestsTable := pullRequestsBlock messages message results |}
      | _ => noTables
      end
  end.

End Render.

(** *** The screenshots handed to [ScreenshotGallery] *)

(** [interface Screenshot] *)
Record Screenshot : Type := {
  data : jsstring;
  shot_url : jsstring
}.

(** [(r) => r.screenshot]: present and not the empty string. *)
Definition hasScreenshot (r : ToolResult) : bool :=
  match screenshot r with
  | Some (_ :: _) => true
  | _ => false
  end.

(** [(r) => ({ data: r.screenshot!, url: r.url || "" })] *)
Definition toScreenshot (r : ToolResult) : Screenshot :=
  {| data := match screenshot r with Some d => d | None => [] end;
     shot_url := match url r with Some u => u | None => [] end |}.

(** The [screenshots] of the gallery, when the gallery is rendered. *)
Definition gallery (results : list ToolResult) : option (list Screenshot) :=
  if existsb hasScreenshot results
  then Some (List.map toScreenshot (filter hasScreenshot results))
  else None.

(** *** The text of a cell *)

(** [{s.substring(0, n)}{s.length > n ? "..." : ""}] *)
Definition truncated (n : nat) (s : jsstring) : jsstring :=
  firstn n s ++ (if n <? length s then js "..." else []).

End MessageList.

(* ===================================================================== *)
(** ** [ScreenshotGallery] *)
(* ===================================================================== *)

Module ScreenshotGallery.

(** What the gallery renders: nothing; the thumbnails with their keys and
    the screenshot of the lightbox when it is open; or a failed render,
    when the lightbox reads a screenshot that is not there. *)
Inductive View : Type :=
| Nothing
| Gallery (thumbnails : list (nat * MessageList.Screenshot))
          (lightbox : option MessageList.Screenshot)
| Failure.

Definition render (screenshots : list MessageList.Screenshot)
    (selectedScreenshot : option nat) : View :=
  if length screenshots =? 0 then Nothing
  else match selectedScreenshot with
       | None => Gallery (MessageList.indexed screenshots) None
       | Some idx =>
           match nth_error screenshots idx with
           | Some s => Gallery (MessageList.indexed screenshots) (Some s)
           | None => Failure
           end
       end.

(** The clicks: on the thumbnail [idx], and on the lightbox or its
    button. *)
Inductive Click : Type :=
| Thumbnail (idx : nat)
| CloseLightbox.

Definition onClick (selectedScreenshot : option nat) (c : Click) : option nat :=
  match c with
  | Thumbnail idx => Some idx
  | CloseLightbox => None
  end.

(** A click is on something the view shows. *)
Definition offers (v : View) (c : Click) : bool :=
  match v, c with
  | Gallery thumbnails _, Thumbnail idx => existsb (fun t => fst t =? idx) thumbnails
  | Gallery _ (Some _), CloseLightbox => true
  | _, _ => false
  end.

(** The selection after a series of clicks, each on what the view shows
    at that moment; [None] when a click has nothing to land on. *)
Fixpoint clicks (screenshots : list MessageList.Screenshot)
    (selectedScreenshot : option nat) (cs : list Click) : option (option nat) :=
  match cs with
  | [] => Some selectedScreenshot
  | c :: rest =>
      if offers (render screenshots selectedScreenshot) c
      then clicks screenshots (onClick selectedScreenshot c) rest
      else None
  end.

End ScreenshotGallery.

(* ===================================================================== *)
(** ** Sample inputs *)
(* ===================================================================== *)

Module Sample.

(** [s] without the prefix [p]. *)
Definition afterPrefix (p s : jsstring) : option jsstring :=
  if startsWith p s then Some (skipn (length p) s) else None.

(** [s] between the prefix [p] and the suffix [q]. *)
Definition between (p q s : jsstring) : option jsstring :=
  match afterPrefix p s with
  | Some r => option_map (@rev N) (afterPrefix (rev q) (rev r))
  | None => None
  end.

(** The characters a JSON string holds unescaped. *)
Definition plain (s : jsstring) : bool :=
  forallb (fun c => negb (c =? 0x22)%N && negb (c =? 0x5C)%N && (0x20 <=? c)%N) s.

Definition quoted (p q s : jsstring) : option jsstring :=
  match between p q s with
  | Some b => if plain b then Some b else None
  | None => None
  end.

Definition screenshotResult (data : jsstring) : ToolResult :=
  {| screenshot := Some data; url := None; repository := None;
     commits := None; issues := None; pullRequests := None |}.

Definition namedCall (n : jsstring) : ToolCall :=
  {| call_id := js "1";
     function := {| name := n; arguments := js "{}" |} |}.

(** [JSON.parse] on the payloads of the examples: a content, error,
    tool-result, tool-call or done record in the layout below.  Every other
    text is refused (the examples use a text that is no JSON at all). *)
Definition parse (s : jsstring) : option StreamEvent :=
  match quoted (jsq "{'type':'content','content':'") (jsq "'}") s with
  | Some c => Some (EvContent c)
  | None =>
  match quoted (jsq "{'type':'error','error':'") (jsq "'}") s with
  | Some e => Some (EvError e)
  | None =>
  match quoted (jsq "{'type':'tool_result','result':{'screenshot':'")
               (jsq "'}}") s with
  | Some d => Some (EvToolResult (screenshotResult d))
  | None =>
  match quoted (jsq "{'type':'tool_call','toolCall':{'id':'1','function':{'name':'")
               (jsq "','arguments':'{}'}}}") s with
  | Some n => Some (EvToolCall (namedCall n))
  | None =>
      if jseq s (jsq "{'type':'done'}") then Some (EvDone None None)
      else if jseq s (jsq "{'type':'done','toolCalls':[],'toolResults':[]}")
      then Some (EvDone (Some []) (Some []))
      else if jseq s (jsq "{'type':'done','toolCalls':[{'id':'1','function':{'name':'get_commits','arguments':'{}'}}],'toolResults':[{'screenshot':'png'}]}")
      then Some (EvDone (Some [namedCall (js "get_commits")])
                   (Some [screenshotResult (js "png")]))
      else None
  end end end end.

(** An engine that leaves a list as it is where the comparator does not
    order it. *)
Definition engine (l : list Message) : list Message := l.

(** [String.prototype.toLowerCase] on ASCII text. *)
Definition lower (s : jsstring) : jsstring :=
  List.map (fun c => if ((0x41 <=? c) && (c <=? 0x5A))%N then (c + 0x20)%N else c) s.

Definition assistantId : jsstring := toString 1700000000001.

(** A client about to submit a question. *)
Definition idle : Client :=
  {| messages := []; input := js "analyze vercel/next.js";
     isLoading := false; currentToolCalls := []; currentToolResults := [];
     assistantContent := []; buffer := []; console := [] |}.

(** An environment whose response streams [values] and then closes. *)
Definition streaming (values : list (list byte)) : Env :=
  {| nowUser := 1700000000000;
     fetch := Resolved {| ok := true;
                          body := Some {| chunks := values; failure := None |} |};
     nowAssistant := 1700000000001;
     nowError := 1700000000002 |}.

(** An environment whose response streams [values] and then fails. *)
Definition breaking (values : list (list byte)) (message : jsstring) : Env :=
  {| nowUser := 1700000000000;
     fetch := Resolved {| ok := true;
                          body := Some {| chunks := values;
                                          failure := Some message |} |};
     nowAssistant := 1700000000001;
     nowError := 1700000000002 |}.

Definition question : Message :=
  {| id := toString 1700000000000; role := user;
     content := js "analyze vercel/next.js";
     toolCalls := None; toolResults := None |}.

Definition answer (c : jsstring) (tcs : list ToolCall) (trs : list ToolResult) : Message :=
  {| id := assistantId; role := assistant; content := c;
     toolCalls := Some tcs; toolResults := Some trs |}.

Definition failed (message : jsstring) : Message :=
  {| id := toString 1700000000002; role := assistant;
     content := js "Error: " ++ message;
     toolCalls := None; toolResults := None |}.

(** The client inside the read loop, before the first chunk. *)
Definition reading : Client :=
  {| messages := [question; answer [] [] []]; input := [];
     isLoading := true; currentToolCalls := []; currentToolResults := [];
     assistantContent := []; buffer := []; console := [] |}.

(** The client after a tool call and a tool result have been applied. *)
Definition informed : Client :=
  {| messages := [question;
                  answer [] [namedCall (js "get_issues")]
                    [screenshotResult (js "img")]];
     input := []; isLoading := true;
     currentToolCalls := [namedCall (js "get_issues")];
     currentToolResults := [screenshotResult (js "img")];
     assistantContent := []; buffer := []; console := [] |}.

(** A record with a two-byte character, whole and cut inside it. *)
Definition accentHead : list byte :=
  bytesq "data: {'type':'content','content':'" ++ [xc3].
Definition accentTail : list byte :=
  [xa9] ++ bytesq "'}" ++ [x0a].

(** Records of the examples, as lines and as bytes without a line feed. *)
Definition errorRecord : jsstring := jsq "data: {'type':'error','error':'boom'}".
Definition contentRecord : jsstring := jsq "data: {'type':'content','content':'Hi'}".
Definition doneRecord : jsstring := jsq "data: {'type':'done'}".
Definition summaryRecord : jsstring :=
  jsq "data: {'type':'done','toolCalls':[{'id':'1','function':{'name':'get_commits','arguments':'{}'}}],'toolResults':[{'screenshot':'png'}]}".
Definition malformedRecord : jsstring := jsq "data: {oops".

Definition errorBytes : list byte := bytesq "data: {'type':'error','error':'boom'}".
Definition resultBytes : list byte :=
  bytesq "data: {'type':'tool_result','result':{'screenshot':'img'}}".
Definition callBytes : list byte :=
  bytesq "data: {'type':'tool_call','toolCall':{'id':'1','function':{'name':'get_issues','arguments':'{}'}}}".
Definition contentBytes : list byte := bytesq "data: {'type':'content','content':'Hi'}".
Definition doneBytes : list byte := bytesq "data: {'type':'done'}".
Definition malformedBytes : list byte := bytesq "data: {oops".

(** A list of [n] entries. *)
Definition entries (n : nat) : list json :=
  List.map (fun i => JNumber (toString (N.of_nat i))) (seq 0 n).

Definition issuesResult (data : list json) : ToolResult :=
  {| screenshot := None; url := None; repository := None;
     commits := None; issues := Some data; pullRequests := None |}.

Definition asked (text : jsstring) : Message :=
  {| id := toString 1700000000000; role := user; content := text;
     toolCalls := None; toolResults := None |}.

(** A conversation whose answer carries 60 issues. *)
Definition report : Message :=
  answer (js "Here are the issues.") [] [issuesResult (entries 60)].

Definition dialogue : list Message :=
  [asked (js "Show me the open issues"); report].

(** An environment whose request never gets a response. *)
Definition offline : Env :=
  {| nowUser := 1700000000000;
     fetch := Rejected (js "Failed to fetch");
     nowAssistant := 1700000000001;
     nowError := 1700000000002 |}.

(** A client with a conversation behind it, about to ask again. *)
Definition returning : Client :=
  {| messages := dialogue; input := js "and the pull requests?";
     isLoading := false; currentToolCalls := []; currentToolResults := [];
     assistantContent := []; buffer := []; console := [] |}.

(** The environment of that second exchange. *)
Definition later (values : list (list byte)) (end_ : option jsstring) : Env :=
  {| nowUser := 1700000005000;
     fetch := Resolved {| ok := true;
                          body := Some {| chunks := values; failure := end_ |} |};
     nowAssistant := 1700000005001;
     nowError := 1700000005002 |}.


(** A question and an empty answer with given ids. *)
Definition ask (i text : string) : Message :=
  {| id := js i; role := user; content := js text;
     toolCalls := None; toolResults := None |}.

Definition reply (i : string) : Message :=
  {| id := js i; role := assistant; content := [];
     toolCalls := Some []; toolResults := Some [] |}.



Definition commitsResult (data : list json) : ToolResult :=
  {| screenshot := None; url := None; repository := None;
     commits := Some data; issues := None; pullRequests := None |}.

Definition pullRequestsResult (data : list json) : ToolResult :=
  {| screenshot := None; url := None; repository := None;
     commits := None; issues := None; pullRequests := Some data |}.

(** An answer with commits, issues and pull requests. *)
Definition overview : Message :=
  answer (js "Here is the repository.") []
    [commitsResult (entries 3); issuesResult (entries 2);
     pullRequestsResult (entries 4)].

(** Two screenshots. *)
Definition shots : list MessageList.Screenshot :=
  [{| MessageList.data := js "iVBOR"; MessageList.shot_url := js "https://github.com/a/b" |};
   {| MessageList.data := js "iVBOS"; MessageList.shot_url := js "https://github.com/c/d" |}].

End Sample.

(* ===================================================================== *)
(** ** Facts about strings *)
(* ===================================================================== *)

Example split_lines :
  split (js "ab" ++ [LF] ++ js "c") = [js "ab"; js "c"]
  /\ split (js "ab" ++ [LF]) = [js "ab"; []]
  /\ split [] = [[]].
Proof. repeat split; reflexivity. Qed.

Example trim_both_ends :
  trim (js "  a b " ++ [0x0D%N]) = js "a b" /\ trim (js "   ") = [].
Proof. split; reflexivity. Qed.

Example includes_inside_word :
  includes (js "pr") (js "analyze express") = true
  /\ includes (js "issue") (js "open issues") = true
  /\ includes (js "pull request") (js "pull requests") = true.
Proof. repeat split; reflexivity. Qed.

Example ids_as_strings_and_numbers :
  toString 1700000000000 = js "1700000000000"
  /\ Number (js "1700000000000") = Some (Finite (1700000000000 * 2 ^ 1074))
  /\ jsle (js "1700000000000") (js "1700000000001") = true
  /\ jsle (js "9") (js "10") = false.
Proof. repeat split; vm_compute; reflexivity. Qed.

(** [Number] reads every numeric literal of a string, not only plain
    digits, and rounds to a double. *)
Example Number_literals :
  Number (js "1e3") = Number (js "1000")
  /\ Number (js " 12 ") = Some (Finite (12 * 2 ^ 1074))
  /\ Number [] = Some (Finite 0)
  /\ Number (js "0x1F") = Number (js "31")
  /\ Number (js "0b101") = Number (js "5")
  /\ Number (js "5.") = Number (js "5")
  /\ Number (js ".5") = Some (Finite (2 ^ 1073))
  /\ Number (js "-2.5e1") = Some (Finite (- (25 * 2 ^ 1074)))
  /\ Number (js "0.1") = Some (Finite (3602879701896397 * 2 ^ 1019))
  /\ Number (js "Infinity") = Some (Infinite false)
  /\ Number (js "-Infinity") = Some (Infinite true).
Proof. vm_compute. repeat split. Qed.

Example Number_NaN :
  Number (js "abc") = None
  /\ Number (js "1_000") = None
  /\ Number (js "12px") = None
  /\ Number (js ".") = None
  /\ Number (js "1e") = None
  /\ Number (js "0x") = None
  /\ Number (js "+0x10") = None
  /\ Number (js "infinity") = None.
Proof. vm_compute. repeat split. Qed.

(** Beyond 2^53 neighbouring integers are one Number; beyond the greatest
    double a literal is infinite, below the least it is zero. *)
Example Number_rounding :
  Number (js "9007199254740993") = Number (js "9007199254740992")
  /\ Number (js "9007199254740995") = Number (js "9007199254740996")
  /\ Number (js "1.7976931348623157e308")
     = Some (Finite ((2 ^ 53 - 1) * 2 ^ 2045))
  /\ Number (js "1.7976931348623159e308") = Some (Infinite false)
  /\ Number (js "5e-324") = Some (Finite 1)
  /\ Number (js "2e-324") = Some (Finite 0).
Proof. vm_compute. repeat split. Qed.

Lemma jseq_true_iff (a b : jsstring) : jseq a b = true <-> a = b.
Proof.
  revert b; induction a as [|x a IH]; intros [|y b]; simpl;
    try (split; [discriminate | congruence]); try tauto.
  rewrite andb_true_iff, N.eqb_eq, IH.
  split; [intros [-> ->]; reflexivity | intros H; inversion H; auto].
Qed.

Lemma jseq_refl (a : jsstring) : jseq a a = true.
Proof. apply jseq_true_iff; reflexivity. Qed.

Lemma jseq_false_iff (a b : jsstring) : jseq a b = false <-> a <> b.
Proof.
  rewrite <- jseq_true_iff.
  destruct (jseq a b); split; congruence.
Qed.

Lemma split_not_nil (s : jsstring) : split s <> [].
Proof.
  destruct s as [|c s]; simpl; [discriminate|].
  destruct (N.eqb c LF); [discriminate|].
  destruct (split s); discriminate.
Qed.

(** A text without a line feed is a single, unfinished line. *)
Lemma split_no_LF (s : jsstring) : ~ In LF s -> split s = [s].
Proof.
  induction s as [|c s IH]; simpl; intros H; [reflexivity|].
  destruct (N.eqb_spec c LF) as [->|_]; [tauto|].
  rewrite IH by tauto; reflexivity.
Qed.

(** What follows the last line feed holds no line feed. *)
Lemma last_split_no_LF (s : jsstring) : ~ In LF (last (split s) []).
Proof.
  induction s as [|c s IH]; simpl; [tauto|].
  destruct (N.eqb_spec c LF) as [->|Hc].
  - pose proof (split_not_nil s).
    destruct (split s) as [|l ls] eqn:E; [tauto | exact IH].
  - destruct (split s) as [|l ls] eqn:E; [exfalso; eapply split_not_nil; eauto|].
    destruct ls as [|l' ls]; simpl in *; [|exact IH].
    intros [H|H]; [congruence | tauto].
Qed.

(** Splitting a text in two parts: the lines that the first part
    completes, then the split of its unfinished line followed by the
    second part. *)
Lemma split_app (a b : jsstring) :
  split (a ++ b) = removelast (split a) ++ split (last (split a) [] ++ b).
Proof.
  induction a as [|c a IH]; [reflexivity|].
  cbn [app split].
  destruct (N.eqb_spec c LF) as [->|Hc].
  - rewrite IH.
    pose proof (split_not_nil a).
    destruct (split a) as [|l ls]; [tauto | reflexivity].
  - rewrite IH.
    pose proof (split_not_nil a).
    destruct (split a) as [|l ls]; [tauto|].
    destruct ls as [|l' ls].
    + cbn [removelast last app split].
      destruct (N.eqb_spec c LF); [tauto | reflexivity].
    + reflexivity.
Qed.

Lemma split_line (l b : jsstring) :
  ~ In LF l -> split (l ++ LF :: b) = l :: split b.
Proof.
  induction l as [|c l IH]; intros H; [reflexivity|].
  cbn [app split].
  destruct (N.eqb_spec c LF) as [->|_]; [simpl in H; tauto|].
  rewrite IH by (simpl in H; tauto). reflexivity.
Qed.

Lemma last_app_ne {A : Type} (l l' : list A) (d : A) :
  l' <> [] -> last (l ++ l') d = last l' d.
Proof.
  intros H; induction l as [|x l IH]; [reflexivity|].
  simpl. destruct (l ++ l') eqn:E; [|exact IH].
  apply app_eq_nil in E; tauto.
Qed.

Lemma trimStart_nil_iff (s : jsstring) :
  trimStart s = [] <-> forallb isWhiteSpace s = true.
Proof.
  induction s as [|c s IH]; simpl; [tauto|].
  destruct (isWhiteSpace c); simpl; [exact IH|].
  split; discriminate.
Qed.

(** A line that starts with the marker is not blank. *)
Lemma marker_not_blank (line : jsstring) :
  startsWith (js "data: ") line = true -> jseq (trim line) [] = false.
Proof.
  intros H. apply jseq_false_iff. unfold trim. intros E.
  change (js "data: ") with [100; 97; 116; 97; 58; 32]%N in H.
  destruct line as [|c line]; [discriminate|].
  cbn [startsWith] in H. apply andb_true_iff in H. destruct H as [Hc _].
  apply N.eqb_eq in Hc. subst c.
  cbn [trimStart isWhiteSpace] in E. cbn in E.
  apply (f_equal (@rev N)) in E. rewrite rev_involutive in E. cbn in E.
  apply trimStart_nil_iff in E.
  rewrite forallb_app in E. cbn in E.
  rewrite andb_false_r in E. discriminate.
Qed.

(* ===================================================================== *)
(** ** Facts about the decoder *)
(* ===================================================================== *)

Example decode_characters :
  TextDecoder.decode [xc3; xa9] = [0xE9%N]
  /\ TextDecoder.decode [xe2; x82; xac] = [0x20AC%N]
  /\ TextDecoder.decode [xf0; x9f; x98; x80] = [0xD83D%N; 0xDE00%N]
  /\ TextDecoder.decode [xef; xbb; xbf; x41] = [0x41%N].
Proof. repeat split; reflexivity. Qed.

Example decode_broken_sequences :
  TextDecoder.decode [xc3] = [0xFFFD%N]
  /\ TextDecoder.decode [xa9] = [0xFFFD%N]
  /\ TextDecoder.decode [xc3; x41] = [0xFFFD%N; 0x41%N]
  /\ TextDecoder.decode [xe2; x82] = [0xFFFD%N].
Proof. repeat split; reflexivity. Qed.

Lemma run_ascii (bs : list byte) :
  forallb TextDecoder.isAscii bs = true ->
  TextDecoder.run TextDecoder.initial bs = List.map Byte.to_N bs.
Proof.
  induction bs as [|b bs IH]; [reflexivity|].
  cbn [forallb]. intros H. apply andb_true_iff in H. destruct H as [Hb Hbs].
  unfold TextDecoder.isAscii in Hb. apply N.ltb_lt in Hb.
  cbn [TextDecoder.run List.map].
  unfold TextDecoder.step, TextDecoder.lead, TextDecoder.between.
  cbn [TextDecoder.bytes_needed TextDecoder.initial N.eqb].
  destruct (N.leb_spec 0 (Byte.to_N b)) as [_|Hlt]; [|lia].
  destruct (N.leb_spec (Byte.to_N b) 0x7F) as [_|Hgt]; [|lia].
  cbn [andb app]. rewrite (IH Hbs). reflexivity.
Qed.

Lemma utf16_small (l : list N) :
  Forall (fun c => (c < 0x10000)%N) l -> flat_map TextDecoder.utf16 l = l.
Proof.
  induction 1 as [|c l Hc _ IH]; [reflexivity|].
  cbn [flat_map]. unfold TextDecoder.utf16 at 1.
  apply N.ltb_lt in Hc. rewrite Hc, IH. reflexivity.
Qed.

(** ASCII bytes decode to themselves. *)
Lemma decode_ascii (bs : list byte) :
  forallb TextDecoder.isAscii bs = true ->
  TextDecoder.decode bs = List.map Byte.to_N bs.
Proof.
  intros H. unfold TextDecoder.decode. rewrite (run_ascii bs H).
  assert (Hs : Forall (fun c => (c < 0x80)%N) (List.map Byte.to_N bs)).
  { rewrite Forall_map, Forall_forall. intros b Hb.
    rewrite forallb_forall in H. apply N.ltb_lt. apply (H b Hb). }
  replace (TextDecoder.stripBOM (List.map Byte.to_N bs)) with (List.map Byte.to_N bs).
  - apply utf16_small. eapply Forall_impl; [|exact Hs].
    cbn beta. intros c Hc. lia.
  - destruct Hs as [|c l Hc _]; [reflexivity|].
    unfold TextDecoder.stripBOM.
    destruct (N.eqb_spec c TextDecoder.BOM) as [->|_]; [|reflexivity].
    unfold TextDecoder.BOM in Hc. lia.
Qed.

(** Over ASCII chunks, decoding chunk by chunk is decoding the whole. *)
Lemma decode_chunks_ascii (values : list (list byte)) :
  forallb (forallb TextDecoder.isAscii) values = true ->
  concat (List.map TextDecoder.decode values) = List.map Byte.to_N (concat values).
Proof.
  induction values as [|v values IH]; [reflexivity|].
  cbn [forallb]. intros H. apply andb_true_iff in H. destruct H as [Hv Hvs].
  cbn [List.map concat]. rewrite map_app, (decode_ascii v Hv), (IH Hvs).
  reflexivity.
Qed.

(* ===================================================================== *)
(** ** Facts about the assembler *)
(* ===================================================================== *)

(** Case analysis on what a line is, for the lemmas that hold of every
    line. *)
Ltac line_cases parse line :=
  destruct (jseq (trim line) []);
  [ | destruct (startsWith (js "data: ") line);
      [ destruct (negb (truthy (trim (slice 6 line))));
        [ | destruct (parse (trim (slice 6 line))) as [[ | | | | | ]|] ]
      | ] ].

Section AssemblerFacts.

Variable JSON_parse : jsstring -> option StreamEvent.
Variable assistantId : jsstring.

(** What a record that decodes does, in the loop and in the final pass. *)
Lemma processLine_decodes (st : Client) (line : jsstring) (data : StreamEvent) :
  decodesTo JSON_parse line data ->
  processLine JSON_parse assistantId st line =
  match applyEvent assistantId (log (ReceivedEvent data) st) data with
  | Normal st' => st'
  | Throw st' e => log (ErrorParsingSSE e line) st'
  end.
Proof.
  intros (Hm & Ht & Hp). unfold processLine, tryLine.
  rewrite (marker_not_blank line Hm), Hm, Ht, Hp. reflexivity.
Qed.

Lemma processFinalLine_decodes (st : Client) (line : jsstring) (data : StreamEvent) :
  decodesTo JSON_parse line data ->
  processFinalLine JSON_parse assistantId st line =
  stateOf (applyFinalEvent assistantId (log (ReceivedFinalEvent data) st) data).
Proof.
  intros (Hm & Ht & Hp). unfold processFinalLine, tryFinalLine.
  rewrite (marker_not_blank line Hm), Hm, Ht, Hp.
  destruct data; reflexivity.
Qed.

(** What a malformed record does: the failure is logged, nothing else. *)
Lemma processLine_malformed (st : Client) (line : jsstring) :
  malformed JSON_parse line ->
  processLine JSON_parse assistantId st line
  = log (ErrorParsingSSE DecodeFailure line) st.
Proof.
  intros (Hm & Ht & Hp). unfold processLine, tryLine.
  rewrite (marker_not_blank line Hm), Hm, Ht, Hp. reflexivity.
Qed.

Lemma processFinalLine_malformed (st : Client) (line : jsstring) :
  malformed JSON_parse line ->
  processFinalLine JSON_parse assistantId st line
  = log (ErrorParsingFinalSSE DecodeFailure) st.
Proof.
  intros (Hm & Ht & Hp). unfold processFinalLine, tryFinalLine.
  rewrite (marker_not_blank line Hm), Hm, Ht, Hp. reflexivity.
Qed.

(** An 'error' record in the loop: three lines on the console, the last
    one written by the [catch] of the line, and nothing else. *)
Lemma error_record_is_logged (st : Client) (line e : jsstring) :
  decodesTo JSON_parse line (EvError e) ->
  processLine JSON_parse assistantId st line
  = log (ErrorParsingSSE (Error e) line)
      (log (ErrorFromServer e) (log (ReceivedEvent (EvError e)) st)).
Proof.
  intros H. rewrite (processLine_decodes st line (EvError e) H). reflexivity.
Qed.

(** The final pass applies content and done records only. *)
Lemma final_pass_applies_content_and_done
    (st : Client) (line : jsstring) (data : StreamEvent) :
  decodesTo JSON_parse line data ->
  match data with
  | EvContent _ | EvDone _ _ => True
  | _ => processFinalLine JSON_parse assistantId st line
         = log (ReceivedFinalEvent data) st
  end.
Proof.
  intros H. rewrite (processFinalLine_decodes st line data H).
  destruct data; try reflexivity; exact I.
Qed.

(** A line reads the conversation, never the console or the buffer. *)
Lemma processLine_shown (st : Client) (line : jsstring) :
  shown (processLine JSON_parse assistantId st line)
  = shown (processLine JSON_parse assistantId (shown st) line).
Proof. unfold processLine, tryLine. line_cases JSON_parse line; reflexivity. Qed.

Lemma processFinalLine_shown (st : Client) (line : jsstring) :
  shown (processFinalLine JSON_parse assistantId st line)
  = shown (processFinalLine JSON_parse assistantId (shown st) line).
Proof. unfold processFinalLine, tryFinalLine. line_cases JSON_parse line; reflexivity. Qed.

Lemma fold_shown (f : Client -> jsstring -> Client) (lines : list jsstring) :
  (forall st line, shown (f st line) = shown (f (shown st) line)) ->
  forall a b, shown a = shown b ->
  shown (fold_left f lines a) = shown (fold_left f lines b).
Proof.
  intros Hf. induction lines as [|l lines IH]; intros a b H; [exact H|].
  simpl. apply IH. rewrite (Hf a), (Hf b), H. reflexivity.
Qed.

(** The buffer is a local of the chunk loop: a line does not read it. *)
Lemma processLine_setBuffer (x : jsstring) (st : Client) (line : jsstring) :
  processLine JSON_parse assistantId (setBuffer x st) line
  = setBuffer x (processLine JSON_parse assistantId st line).
Proof. unfold processLine, tryLine. line_cases JSON_parse line; reflexivity. Qed.

Lemma fold_processLine_setBuffer (x : jsstring) (lines : list jsstring) (st : Client) :
  fold_left (processLine JSON_parse assistantId) lines (setBuffer x st)
  = setBuffer x (fold_left (processLine JSON_parse assistantId) lines st).
Proof.
  revert st; induction lines as [|l lines IH]; intros st; [reflexivity|].
  simpl. rewrite processLine_setBuffer. apply IH.
Qed.

Lemma setBuffer_buffer (st : Client) : setBuffer (buffer st) st = st.
Proof. destruct st; reflexivity. Qed.

Lemma processLine_buffer (st : Client) (line : jsstring) :
  buffer (processLine JSON_parse assistantId st line) = buffer st.
Proof.
  rewrite <- (setBuffer_buffer st) at 1.
  rewrite processLine_setBuffer. reflexivity.
Qed.

Lemma fold_processLine_buffer (lines : list jsstring) (st : Client) :
  buffer (fold_left (processLine JSON_parse assistantId) lines st) = buffer st.
Proof.
  revert st; induction lines as [|l lines IH]; intros st; [reflexivity|].
  simpl. rewrite IH. apply processLine_buffer.
Qed.

(** The console only grows. *)
Lemma processLine_console (st : Client) (line : jsstring) :
  exists more,
    console (processLine JSON_parse assistantId st line) = console st ++ more.
Proof.
  unfold processLine, tryLine.
  line_cases JSON_parse line; try (exists []; symmetry; apply app_nil_r);
    cbn; rewrite <- ?app_assoc; eexists; reflexivity.
Qed.

Lemma processFinalLine_console (st : Client) (line : jsstring) :
  exists more,
    console (processFinalLine JSON_parse assistantId st line) = console st ++ more.
Proof.
  unfold processFinalLine, tryFinalLine.
  line_cases JSON_parse line; try (exists []; symmetry; apply app_nil_r);
    cbn; rewrite <- ?app_assoc; eexists; reflexivity.
Qed.

Lemma fold_console (f : Client -> jsstring -> Client) (lines : list jsstring) :
  (forall st line, exists more, console (f st line) = console st ++ more) ->
  forall st, exists more, console (fold_left f lines st) = console st ++ more.
Proof.
  intros Hf. induction lines as [|l lines IH]; intros st.
  - exists []; symmetry; apply app_nil_r.
  - simpl. destruct (IH (f st l)) as [m1 E1]. destruct (Hf st l) as [m2 E2].
    exists (m2 ++ m1). rewrite E1, E2, app_assoc. reflexivity.
Qed.

Lemma onDone_console (st : Client) :
  exists more, console (onDone JSON_parse assistantId st) = console st ++ more.
Proof.
  unfold onDone. destruct (truthy (buffer st)).
  - apply fold_console. apply processFinalLine_console.
  - exists []; symmetry; apply app_nil_r.
Qed.

Lemma onDone_shown (a b : Client) :
  shown a = shown b -> buffer a = buffer b ->
  shown (onDone JSON_parse assistantId a) = shown (onDone JSON_parse assistantId b).
Proof.
  intros H Hb. unfold onDone. rewrite Hb.
  destruct (truthy (buffer b)); [|exact H].
  apply fold_shown; [apply processFinalLine_shown | exact H].
Qed.

(** The state after the whole stream in terms of the whole text: the lines
    that a line feed ends go through the loop, what follows the last line
    feed is left to the final pass. *)
Lemma readTexts_whole (texts : list jsstring) (st : Client) :
  ~ In LF (buffer st) ->
  readTexts JSON_parse assistantId st texts
  = onDone JSON_parse assistantId
      (fold_left (processLine JSON_parse assistantId)
         (removelast (split (buffer st ++ concat texts)))
         (setBuffer (last (split (buffer st ++ concat texts)) []) st)).
Proof.
  revert st; induction texts as [|t texts IH]; intros st Hb.
  - cbn [concat readTexts]. rewrite app_nil_r, (split_no_LF _ Hb).
    cbn. rewrite setBuffer_buffer. reflexivity.
  - cbn [concat readTexts]. rewrite IH.
    + unfold onText. cbv zeta.
      rewrite !fold_processLine_setBuffer. cbn [buffer setBuffer].
      rewrite app_assoc, (split_app (buffer st ++ t)).
      rewrite removelast_app by apply split_not_nil.
      rewrite last_app_ne by apply split_not_nil.
      rewrite fold_left_app. reflexivity.
    + unfold onText. cbv zeta.
      rewrite fold_processLine_setBuffer. cbn [buffer setBuffer].
      apply last_split_no_LF.
Qed.

(** Chunking invariance over decoded text: the state after the stream
    depends on the concatenation of the chunks only. *)
Lemma readTexts_concat (texts texts' : list jsstring) (st : Client) :
  buffer st = [] -> concat texts = concat texts' ->
  readTexts JSON_parse assistantId st texts
  = readTexts JSON_parse assistantId st texts'.
Proof.
  intros Hb H.
  rewrite !readTexts_whole by (rewrite Hb; simpl; tauto).
  rewrite H. reflexivity.
Qed.

(** The loop over the byte chunks of a stream that closes is the loop over
    their decoded texts. *)
Lemma readLoop_texts (values : list (list byte)) (st : Client) :
  readLoop JSON_parse assistantId st values None
  = Normal (readTexts JSON_parse assistantId st (List.map TextDecoder.decode values)).
Proof.
  revert st; induction values as [|v values IH]; intros st; [reflexivity|].
  simpl. rewrite IH. reflexivity.
Qed.

(** Two ways of cutting a stream into chunks end in the same state when
    the chunks decode to the same text. *)
Lemma readLoop_concat (values values' : list (list byte)) (st : Client) :
  buffer st = [] ->
  concat (List.map TextDecoder.decode values)
  = concat (List.map TextDecoder.decode values') ->
  readLoop JSON_parse assistantId st values None
  = readLoop JSON_parse assistantId st values' None.
Proof.
  intros Hb H. rewrite !readLoop_texts.
  f_equal. apply readTexts_concat; assumption.
Qed.

(** Chunking invariance over the bytes of an ASCII stream: no cut can
    fall inside a character. *)
Lemma ascii_stream_chunking_invariance
    (values values' : list (list byte)) (st : Client) :
  buffer st = [] ->
  forallb (forallb TextDecoder.isAscii) values = true ->
  forallb (forallb TextDecoder.isAscii) values' = true ->
  concat values = concat values' ->
  readLoop JSON_parse assistantId st values None
  = readLoop JSON_parse assistantId st values' None.
Proof.
  intros Hb Ha Ha' H. apply readLoop_concat; [exact Hb|].
  rewrite (decode_chunks_ascii values Ha), (decode_chunks_ascii values' Ha'), H.
  reflexivity.
Qed.

(** [C3] A record whose payload [JSON.parse] rejects is reported and
    skipped.  In the loop or in the final pass, the line leaves the client
    as it was but for the report on the console; and a stream that carries
    such a record on a line of its own ends in the conversation that the
    stream without that line ends in, however either is cut into chunks. *)
Theorem malformed_record_is_skipped
    (st : Client) (pre bad post : jsstring) (values values' : list (list byte)) :
  buffer st = [] ->
  malformed JSON_parse bad ->
  ~ In LF bad ->
  last (split pre) [] = [] ->
  concat (List.map TextDecoder.decode values) = pre ++ bad ++ LF :: post ->
  concat (List.map TextDecoder.decode values') = pre ++ post ->
  (forall s, processLine JSON_parse assistantId s bad
             = log (ErrorParsingSSE DecodeFailure bad) s)
  /\ (forall s, processFinalLine JSON_parse assistantId s bad
                = log (ErrorParsingFinalSSE DecodeFailure) s)
  /\ shown (stateOf (readLoop JSON_parse assistantId st values None))
     = shown (stateOf (readLoop JSON_parse assistantId st values' None))
  /\ In (ErrorParsingSSE DecodeFailure bad)
        (console (stateOf (readLoop JSON_parse assistantId st values None))).
Proof.
  intros Hb Hbad Hlf Hpre Ht Ht'.
  split; [intros s; apply processLine_malformed; exact Hbad|].
  split; [intros s; apply processFinalLine_malformed; exact Hbad|].
  rewrite !readLoop_texts. cbn [stateOf].
  rewrite !readTexts_whole by (rewrite Hb; simpl; tauto).
  rewrite Hb, Ht, Ht'. cbn [app].
  rewrite (split_app pre (bad ++ LF :: post)), (split_app pre post), Hpre.
  cbn [app]. rewrite (split_line bad post Hlf).
  set (X := removelast (split pre)).
  assert (Hne : split post <> []) by apply split_not_nil.
  rewrite !removelast_app by (discriminate || exact Hne).
  rewrite !last_app_ne by (discriminate || exact Hne).
  replace (removelast (bad :: split post)) with (bad :: removelast (split post))
    by (destruct (split post); [tauto | reflexivity]).
  replace (last (bad :: split post) []) with (last (split post) [])
    by (destruct (split post); [tauto | reflexivity]).
  rewrite !fold_left_app. cbn [fold_left].
  rewrite (processLine_malformed _ bad Hbad).
  set (s1 := fold_left _ X _).
  split.
  - apply onDone_shown.
    + apply fold_shown; [apply processLine_shown | reflexivity].
    + rewrite !fold_processLine_buffer. reflexivity.
  - destruct (onDone_console
                (fold_left (processLine JSON_parse assistantId)
                   (removelast (split post))
                   (log (ErrorParsingSSE DecodeFailure bad) s1))) as [m1 E1].
    destruct (fold_console (processLine JSON_parse assistantId)
                (removelast (split post)) processLine_console
                (log (ErrorParsingSSE DecodeFailure bad) s1)) as [m2 E2].
    rewrite E1, E2. cbn [console log].
    rewrite !in_app_iff. left; left; right; left; reflexivity.
Qed.

(** [C4] A 'done' record, in the loop or in the final pass, gives the
    message with the assistant's id exactly the tool calls and the tool
    results that the record carries, and an empty list for a field that
    the record lacks, whatever lists the message held before; its id, role
    and content stay. *)
Theorem done_sets_tool_lists
    (st : Client) (line : jsstring)
    (tcs : option (list ToolCall)) (trs : option (list ToolResult))
    (i : nat) (m : Message) :
  decodesTo JSON_parse line (EvDone tcs trs) ->
  nth_error (messages st) i = Some m ->
  id m = assistantId ->
  let m' := {| id := id m; role := role m; content := content m;
               toolCalls := Some (match tcs with
                                  | Some carried => carried
                                  | None => []
                                  end);
               toolResults := Some (match trs with
                                    | Some carried => carried
                                    | None => []
                                    end) |} in
  nth_error (messages (processLine JSON_parse assistantId st line)) i = Some m'
  /\ nth_error (messages (processFinalLine JSON_parse assistantId st line)) i = Some m'.
Proof.
  intros Hd Hm Hid m'.
  rewrite (processLine_decodes st line _ Hd), (processFinalLine_decodes st line _ Hd).
  cbn. rewrite nth_error_map, Hm. cbn.
  unfold withDone. rewrite Hid, jseq_refl. subst m'. rewrite Hid.
  destruct tcs, trs; split; reflexivity.
Qed.


End AssemblerFacts.

(* ===================================================================== *)
(** ** Facts about [handleSubmit] *)
(* ===================================================================== *)

Section HandleSubmitFacts.

Variable JSON_parse : jsstring -> option StreamEvent.

Lemma processLine_length (aid : jsstring) (st : Client) (line : jsstring) :
  length (messages (processLine JSON_parse aid st line)) = length (messages st).
Proof.
  unfold processLine, tryLine.
  line_cases JSON_parse line; cbn; rewrite ?length_map; reflexivity.
Qed.

Lemma processFinalLine_length (aid : jsstring) (st : Client) (line : jsstring) :
  length (messages (processFinalLine JSON_parse aid st line)) = length (messages st).
Proof.
  unfold processFinalLine, tryFinalLine.
  line_cases JSON_parse line; cbn; rewrite ?length_map; reflexivity.
Qed.

Lemma fold_length (f : Client -> jsstring -> Client) (lines : list jsstring) :
  (forall st line, length (messages (f st line)) = length (messages st)) ->
  forall st, length (messages (fold_left f lines st)) = length (messages st).
Proof.
  intros Hf. induction lines as [|l lines IH]; intros st; [reflexivity|].
  simpl. rewrite IH. apply Hf.
Qed.

Lemma readTexts_length (aid : jsstring) (texts : list jsstring) (st : Client) :
  length (messages (readTexts JSON_parse aid st texts)) = length (messages st).
Proof.
  revert st; induction texts as [|t texts IH]; intros st.
  - cbn [readTexts]. unfold onDone. destruct (truthy (buffer st)); [|reflexivity].
    apply fold_length. apply processFinalLine_length.
  - cbn [readTexts]. rewrite IH. unfold onText. cbv zeta.
    rewrite fold_length by apply processLine_length. reflexivity.
Qed.

(** Whatever records a stream carries, when it closes the conversation
    has grown by the question and the answer and by nothing else: no event
    adds a message. *)
Lemma closed_stream_adds_two_messages (env : Env) (st : Client) (values : list (list byte)) :
  truthy (trim (input st)) = true -> isLoading st = false ->
  fetch env = Resolved {| ok := true;
                          body := Some {| chunks := values; failure := None |} |} ->
  length (messages (fst (handleSubmit JSON_parse env st)))
  = length (messages st) + 2.
Proof.
  intros Hi Hl Hf. unfold handleSubmit, tryFetch.
  rewrite Hi, Hl, Hf. cbn [negb orb ok body chunks failure fst].
  rewrite readLoop_texts.
  cbn [messages setIsLoading setCurrentToolCalls setCurrentToolResults].
  rewrite readTexts_length. cbn. rewrite !length_app. cbn. lia.
Qed.

(** [C6] The request that [handleSubmit] sends holds one entry for every
    message of the conversation, in order, and one more for the new user
    message; an entry is the role and the content of its message and
    nothing else, whatever id, tool calls or tool results the message has.
    A blank input or a client that is loading sends no request. *)
Theorem request_is_role_content_projection (env : Env) (st : Client) :
  snd (handleSubmit JSON_parse env st)
  = if negb (truthy (trim (input st))) || isLoading st then None
    else Some (List.map (fun m => {| turn_role := role m;
                                     turn_content := content m |})
                 (messages st)
               ++ [{| turn_role := user; turn_content := input st |}]).
Proof.
  unfold handleSubmit, requestBody.
  destruct (negb (truthy (trim (input st))) || isLoading st); [reflexivity|].
  cbn [snd]. rewrite map_app. reflexivity.
Qed.

End HandleSubmitFacts.

(** [C2] A stream that carries an 'error' record and then closes: the
    [throw] of the record is caught by the [catch] of its own line, which
    logs it, so the conversation ends with the question and an empty
    answer and shows the error text nowhere.  Only a failure of the read
    itself reaches the handler that appends an error message. *)
Theorem server_error_event_is_swallowed :
  let st := fst (handleSubmit Sample.parse
                   (Sample.streaming [Sample.errorBytes ++ [x0a]]) Sample.idle) in
  let st' := fst (handleSubmit Sample.parse
                    (Sample.breaking [] (js "boom")) Sample.idle) in
  messages st = [Sample.question; Sample.answer [] [] []]
  /\ existsb (fun m => includes (js "boom") (content m)) (messages st) = false
  /\ console st = [ReceivedEvent (EvError (js "boom"));
                   ErrorFromServer (js "boom");
                   ErrorParsingSSE (Error (js "boom")) Sample.errorRecord]
  /\ messages st' = [Sample.question; Sample.answer [] [] [];
                     Sample.failed (js "boom")].
Proof. vm_compute. repeat split; reflexivity. Qed.

(** [C5] A tool-result or tool-call record that is still in the buffer
    when the stream closes is decoded but not applied: the final pass has
    no branch for it, while the same record followed by a line feed goes
    through the loop and is added to the answer. *)
Theorem final_pass_drops_tool_events :
  let run values :=
    messages (fst (handleSubmit Sample.parse (Sample.streaming values) Sample.idle)) in
  run [Sample.resultBytes ++ [x0a]]
    = [Sample.question;
       Sample.answer [] [] [Sample.screenshotResult (js "img")]]
  /\ run [Sample.resultBytes] = [Sample.question; Sample.answer [] [] []]
  /\ run [Sample.callBytes ++ [x0a]]
    = [Sample.question;
       Sample.answer [] [Sample.namedCall (js "get_issues")] []]
  /\ run [Sample.callBytes] = [Sample.question; Sample.answer [] [] []].
Proof. vm_compute. repeat split; reflexivity. Qed.

(** [C1] A record with a two-byte character, delivered whole and cut
    inside the character: every chunk is decoded on its own, the two halves
    of the character each become U+FFFD, and the content event that is
    decoded is another one. *)
Theorem chunk_cut_inside_character_changes_event :
  let run values :=
    fst (handleSubmit Sample.parse (Sample.streaming values) Sample.idle) in
  concat [Sample.accentHead; Sample.accentTail]
    = concat [Sample.accentHead ++ Sample.accentTail]
  /\ console (run [Sample.accentHead ++ Sample.accentTail])
     = [ReceivedEvent (EvContent [0xE9%N])]
  /\ console (run [Sample.accentHead; Sample.accentTail])
     = [ReceivedEvent (EvContent [0xFFFD%N; 0xFFFD%N])]
  /\ messages (run [Sample.accentHead ++ Sample.accentTail])
     = [Sample.question; Sample.answer [0xE9%N] [] []]
  /\ messages (run [Sample.accentHead; Sample.accentTail])
     = [Sample.question; Sample.answer [0xFFFD%N; 0xFFFD%N] [] []].
Proof. vm_compute. repeat split; reflexivity. Qed.

(* ===================================================================== *)
(** ** Facts about the read loop as a transition system *)
(* ===================================================================== *)

Section TransitionFacts.

Variable JSON_parse : jsstring -> option StreamEvent.
Variable assistantId : jsstring.

Lemma step_deterministic (c c1 c2 : Config) :
  step JSON_parse assistantId c c1 -> step JSON_parse assistantId c c2 -> c1 = c2.
Proof.
  intros H1 H2. destruct H1; inversion H2; subst; reflexivity.
Qed.

Lemma finished_is_final (r : Completion jsstring) (c : Config) :
  ~ step JSON_parse assistantId (Finished r) c.
Proof. intros H; inversion H. Qed.

Lemma steps_unique (c : Config) (r1 r2 : Completion jsstring) :
  steps JSON_parse assistantId c (Finished r1) ->
  steps JSON_parse assistantId c (Finished r2) ->
  r1 = r2.
Proof.
  intros H1. remember (Finished r1) as f eqn:Ef. revert r1 Ef.
  induction H1 as [c|c c' f Hs H1 IH]; intros r1 Ef H2; subst.
  - inversion H2 as [|? ? ? Hs' ?]; subst; [reflexivity|].
    exfalso. eapply finished_is_final; eauto.
  - inversion H2 as [|? c'' ? Hs' H2']; subst.
    + exfalso. eapply finished_is_final; eauto.
    + rewrite (step_deterministic c c' c'' Hs Hs') in IH. eapply IH; eauto.
Qed.

(** The loop always completes, in the completion [readLoop] computes. *)
Lemma steps_readLoop (values : list (list byte)) (st : Client) (fail : option jsstring) :
  steps JSON_parse assistantId (Reading st values fail)
    (Finished (readLoop JSON_parse assistantId st values fail)).
Proof.
  revert st; induction values as [|v values IH]; intros st.
  - destruct fail; (eapply steps_step; [constructor | apply steps_refl]).
  - eapply steps_step; [constructor | apply IH].
Qed.

(** [C7] Replaying a recorded stream from the same state: any two runs
    of the read loop over the same chunks end in the same completion, the
    one that [readLoop] computes. *)
Theorem assembly_is_deterministic
    (st : Client) (values : list (list byte)) (fail : option jsstring)
    (r1 r2 : Completion jsstring) :
  steps JSON_parse assistantId (Reading st values fail) (Finished r1) ->
  steps JSON_parse assistantId (Reading st values fail) (Finished r2) ->
  r1 = r2 /\ r2 = readLoop JSON_parse assistantId st values fail.
Proof.
  intros H1 H2. split.
  - exact (steps_unique _ r1 r2 H1 H2).
  - exact (steps_unique _ r2 _ H2 (steps_readLoop values st fail)).
Qed.

End TransitionFacts.

(* ===================================================================== *)
(** ** Facts about [MessageList] *)
(* ===================================================================== *)

Import MessageList.

Section MessageListFacts.

Variable toLowerCase : jsstring -> jsstring.
Variable engineSort : list Message -> list Message.

Lemma indexed_length {A : Type} (l : list A) : length (indexed l) = length l.
Proof. unfold indexed. rewrite length_combine, length_seq. lia. Qed.

Lemma indexed_snd {A : Type} (l : list A) : List.map snd (indexed l) = l.
Proof.
  unfold indexed. generalize 0.
  induction l as [|x l IH]; intros n; [reflexivity|].
  simpl. rewrite IH. reflexivity.
Qed.

Lemma indexed_fst {A : Type} (l : list A) :
  List.map fst (indexed l) = seq 0 (length (indexed l)).
Proof.
  rewrite indexed_length. unfold indexed. generalize 0.
  induction l as [|x l IH]; intros n; [reflexivity|].
  simpl. rewrite IH. reflexivity.
Qed.

(** Where some result has a non-empty list, [find] returns a list. *)
Lemma hasData_findData (f : ToolResult -> option (list json)) (results : list ToolResult) :
  hasData f results = true -> exists data, findData f results = Some data.
Proof.
  unfold hasData, findData.
  induction results as [|r results IH]; simpl; [discriminate|].
  destruct (f r) as [data|] eqn:E; simpl.
  - intros _. rewrite E. eauto.
  - exact IH.
Qed.

Lemma tableOf_showsFirst50 (f : ToolResult -> option (list json))
    (message : Message) (results : list ToolResult) :
  toolResults message = Some results ->
  hasData f results = true ->
  showsFirst50 f message (tableOf f results).
Proof.
  intros Hr Hd. destruct (hasData_findData f results Hd) as [data E].
  exists results, data, (indexed (firstn 50 data)).
  unfold tableOf. rewrite E. cbn [headingCount tableRows].
  rewrite indexed_snd, indexed_length, length_firstn.
  repeat split; try assumption.
  rewrite <- (length_firstn 50 data), <- indexed_length. apply indexed_fst.
Qed.

(** [C9] Each of the three tables, when it is shown, renders the first 50
    entries of the list it is built from, in order, and its heading counts
    the whole list. *)
Theorem tables_show_first_50 (msgs : list Message) (message : Message) :
  (forall t, commitsTable (tablesOf toLowerCase engineSort msgs message) = Some t ->
             showsFirst50 commits message t)
  /\ (forall t, issuesTable (tablesOf toLowerCase engineSort msgs message) = Some t ->
                showsFirst50 issues message t)
  /\ (forall t, pullRequestsTable (tablesOf toLowerCase engineSort msgs message) = Some t ->
                showsFirst50 pullRequests message t).
Proof.
  unfold tablesOf.
  destruct (role message); [cbn; repeat split; discriminate|].
  destruct (toolResults message) as [[|r results]|] eqn:Hr;
    try (cbn; repeat split; discriminate).
  cbn [commitsTable issuesTable pullRequestsTable].
  unfold commitsBlock, issuesBlock, pullRequestsBlock, shouldShowCommits,
    hasCommits, hasIssues, hasPullRequests.
  repeat split; intros t.
  - destruct (hasData commits (r :: results)) eqn:Hd;
      [|cbn [andb]; discriminate].
    rewrite andb_true_l.
    match goal with |- (if ?b then _ else _) = _ -> _ => destruct b end;
      [|discriminate].
    intros H; injection H as <-. apply tableOf_showsFirst50; assumption.
  - destruct (hasData issues (r :: results)) eqn:Hd; [|discriminate].
    cbn [negb].
    match goal with |- (if ?b then _ else _) = _ -> _ => destruct b end;
      [|discriminate].
    intros H; injection H as <-. apply tableOf_showsFirst50; assumption.
  - destruct (hasData pullRequests (r :: results)) eqn:Hd; [|discriminate].
    cbn [negb].
    match goal with |- (if ?b then _ else _) = _ -> _ => destruct b end;
      [|discriminate].
    intros H; injection H as <-. apply tableOf_showsFirst50; assumption.
Qed.

(** The head of the sorted candidates is one of them. *)
Lemma hd_insertSorted (x : Message) (l : list Message) :
  hd_error (insertSorted x l)
  = match l with
    | [] => Some x
    | y :: _ => if (0 <? compareIds x y)%Z then Some y else Some x
    end.
Proof.
  destruct l as [|y l]; [reflexivity|].
  simpl. destruct (0 <? compareIds x y)%Z; reflexivity.
Qed.

Lemma insertSorted_permutation (x : Message) (l : list Message) :
  Permutation (x :: l) (insertSorted x l).
Proof.
  induction l as [|y l IH]; [apply Permutation_refl|].
  cbn [insertSorted]. destruct (0 <? compareIds x y)%Z.
  - eapply Permutation_trans; [apply perm_swap|].
    apply perm_skip. exact IH.
  - apply Permutation_refl.
Qed.

Lemma stableSort_permutation (l : list Message) : Permutation l (stableSort l).
Proof.
  induction l as [|x l IH]; [apply Permutation_refl|].
  cbn [stableSort fold_right]. fold (stableSort l).
  eapply Permutation_trans; [|apply insertSorted_permutation].
  apply perm_skip. exact IH.
Qed.


(** A list whose ids are numbers is sorted by the language alone. *)
Lemma sort_numeric (l : list Message) :
  Forall (fun v => Number (id v) <> None) l ->
  sort engineSort l = stableSort l.
Proof.
  intros H. unfold sort, consistent.
  assert (Hn : numeric l = true).
  { unfold numeric. apply forallb_forall. intros v Hv.
    rewrite Forall_forall in H. specialize (H v Hv).
    destruct (Number (id v)); [reflexivity | congruence]. }
  rewrite Hn. reflexivity.
Qed.

(** The comparison of Numbers that are not NaN is a total preorder. *)
Lemma subSign_total (x y : option double) :
  ~ (0 < subSign y x)%Z -> (0 <= subSign x y)%Z.
Proof.
  destruct x as [[nx|a]|], y as [[ny|b]|]; cbn;
    try destruct nx; try destruct ny; cbn; try lia;
    pose proof (Z.sgn_spec (a - b)); pose proof (Z.sgn_spec (b - a)); lia.
Qed.

Lemma subSign_opp (x y : option double) : subSign y x = (- subSign x y)%Z.
Proof.
  destruct x as [[nx|a]|], y as [[ny|b]|]; cbn;
    try destruct nx; try destruct ny; cbn; try reflexivity.
  rewrite <- Z.sgn_opp. f_equal. lia.
Qed.

Lemma subSign_trans (x y z : option double) :
  y <> None ->
  (0 <= subSign x y)%Z -> (0 <= subSign y z)%Z -> (0 <= subSign x z)%Z.
Proof.
  destruct x as [[nx|a]|], y as [[ny|b]|], z as [[nz|c]|]; cbn;
    try destruct nx; try destruct ny; try destruct nz; cbn;
    try lia; try congruence;
    pose proof (Z.sgn_spec (a - b)); pose proof (Z.sgn_spec (b - c));
    pose proof (Z.sgn_spec (a - c)); lia.
Qed.

(** Among ids that are numbers, the head of the sorted list has the
    greatest, and is the first of the list that has it. *)
Lemma hd_stableSort_first_greatest (l : list Message) :
  Forall (fun v => Number (id v) <> None) l ->
  forall u, hd_error (stableSort l) = Some u ->
  exists before after,
    l = before ++ u :: after
    /\ Forall (fun v => (0 < subSign (Number (id u)) (Number (id v)))%Z) before
    /\ Forall (fun v => (0 <= subSign (Number (id u)) (Number (id v)))%Z) after.
Proof.
  induction l as [|x l IH]; intros Hnum u; [discriminate|].
  inversion Hnum as [|? ? Hx Hl]; subst.
  cbn [stableSort fold_right]. fold (stableSort l). rewrite hd_insertSorted.
  destruct (stableSort l) as [|y s] eqn:E.
  - intros H; injection H as <-.
    pose proof (stableSort_permutation l) as Hp. rewrite E in Hp.
    apply Permutation_sym, Permutation_nil in Hp. subst l.
    exists [], []. repeat split; constructor.
  - destruct (IH Hl y eq_refl) as (before & after & El & Hb & Ha).
    assert (Hy : Number (id y) <> None).
    { rewrite Forall_forall in Hl. apply Hl. rewrite El.
      apply in_or_app. right; left; reflexivity. }
    unfold compareIds.
    destruct (Z.ltb_spec 0 (subSign (Number (id y)) (Number (id x)))) as [Hlt|Hge];
      intros H; injection H as <-.
    + exists (x :: before), after. rewrite El. split; [reflexivity|].
      split; [constructor; assumption | assumption].
    + exists [], l. split; [reflexivity|]. split; [constructor|].
      assert (Hxy : (0 <= subSign (Number (id x)) (Number (id y)))%Z)
        by (apply subSign_total; lia).
      rewrite El. apply Forall_app. split; [|constructor].
      * eapply Forall_impl; [|exact Hb]. intros v Hv. cbv beta in Hv.
        apply (subSign_trans _ (Number (id y))); [assumption | assumption | lia].
      * exact Hxy.
      * eapply Forall_impl; [|exact Ha]. intros v Hv. cbv beta in Hv.
        apply (subSign_trans _ (Number (id y))); assumption.
Qed.


End MessageListFacts.

(* ===================================================================== *)
(** ** The theorems at sample inputs *)
(* ===================================================================== *)

(** A malformed record between a content record and a done record, the
    stream cut inside the malformed line. *)
Lemma malformed_record_is_skipped_witness :
  let values := [Sample.contentBytes ++ [x0a] ++ Sample.malformedBytes;
                 [x0a] ++ Sample.doneBytes ++ [x0a]] in
  let values' := [Sample.contentBytes ++ [x0a] ++ Sample.doneBytes ++ [x0a]] in
  (forall s, processLine Sample.parse Sample.assistantId s Sample.malformedRecord
             = log (ErrorParsingSSE DecodeFailure Sample.malformedRecord) s)
  /\ (forall s, processFinalLine Sample.parse Sample.assistantId s Sample.malformedRecord
                = log (ErrorParsingFinalSSE DecodeFailure) s)
  /\ shown (stateOf (readLoop Sample.parse Sample.assistantId Sample.reading values None))
     = shown (stateOf (readLoop Sample.parse Sample.assistantId Sample.reading values' None))
  /\ In (ErrorParsingSSE DecodeFailure Sample.malformedRecord)
        (console (stateOf (readLoop Sample.parse Sample.assistantId
                             Sample.reading values None))).
Proof.
  intros values values'.
  apply (malformed_record_is_skipped Sample.parse Sample.assistantId
           Sample.reading (Sample.contentRecord ++ [LF]) Sample.malformedRecord
           (Sample.doneRecord ++ [LF]) values values').
  - reflexivity.
  - repeat split; reflexivity.
  - vm_compute. intros H.
    repeat (destruct H as [H|H]; [discriminate H|]). exact H.
  - reflexivity.
  - vm_compute. reflexivity.
  - vm_compute. reflexivity.
Defined.

(** After a tool call and a tool result: a done record that carries
    another call and another result, and a done record without lists. *)
Lemma done_sets_tool_lists_witness :
  (nth_error (messages (processLine Sample.parse Sample.assistantId
                          Sample.informed Sample.summaryRecord)) 1
   = Some (Sample.answer [] [Sample.namedCall (js "get_commits")]
             [Sample.screenshotResult (js "png")])
   /\ nth_error (messages (processFinalLine Sample.parse Sample.assistantId
                             Sample.informed Sample.summaryRecord)) 1
      = Some (Sample.answer [] [Sample.namedCall (js "get_commits")]
                [Sample.screenshotResult (js "png")]))
  /\ (nth_error (messages (processLine Sample.parse Sample.assistantId
                             Sample.informed Sample.doneRecord)) 1
      = Some (Sample.answer [] [] [])
      /\ nth_error (messages (processFinalLine Sample.parse Sample.assistantId
                                Sample.informed Sample.doneRecord)) 1
         = Some (Sample.answer [] [] [])).
Proof.
  split.
  - apply (done_sets_tool_lists Sample.parse Sample.assistantId
             Sample.informed Sample.summaryRecord
             (Some [Sample.namedCall (js "get_commits")])
             (Some [Sample.screenshotResult (js "png")]) 1
             (Sample.answer [] [Sample.namedCall (js "get_issues")]
                [Sample.screenshotResult (js "img")])).
    + repeat split; reflexivity.
    + reflexivity.
    + reflexivity.
  - apply (done_sets_tool_lists Sample.parse Sample.assistantId
             Sample.informed Sample.doneRecord None None 1
             (Sample.answer [] [Sample.namedCall (js "get_issues")]
                [Sample.screenshotResult (js "img")])).
    + repeat split; reflexivity.
    + reflexivity.
    + reflexivity.
Defined.



(** Two runs over one chunk that holds a content record. *)
Lemma assembly_is_deterministic_witness :
  let value := Sample.contentBytes ++ [x0a] in
  let r := Normal (onDone Sample.parse Sample.assistantId
                     (onChunk Sample.parse Sample.assistantId Sample.reading value)) in
  r = readLoop Sample.parse Sample.assistantId Sample.reading [value] None
  /\ readLoop Sample.parse Sample.assistantId Sample.reading [value] None
     = readLoop Sample.parse Sample.assistantId Sample.reading [value] None.
Proof.
  intros value r.
  apply (assembly_is_deterministic Sample.parse Sample.assistantId
           Sample.reading [value] None).
  - eapply steps_step; [apply step_value|].
    eapply steps_step; [apply step_done|]. apply steps_refl.
  - apply steps_readLoop.
Defined.


(** The selection reads the ids as the comparator does: two ids beyond
    2^53 that are one Number tie, and the first of the list stays first;
    an id with an exponent is the number it spells. *)
Example selection_reads_ids_as_numbers :
  userMessage Sample.engine
    [Sample.ask "9007199254740992" "list issues";
     Sample.ask "9007199254740993" "list commits"]
    (Sample.reply "9007199254740994")
  = Some (Sample.ask "9007199254740992" "list issues")
  /\ userMessage Sample.engine
       [Sample.ask "999" "list issues"; Sample.ask "1e3" "list commits"]
       (Sample.reply "9999")
     = Some (Sample.ask "1e3" "list commits").
Proof. vm_compute. split; reflexivity. Qed.

(** A conversation whose answer holds 60 issues as a tool result: the
    request has the roles and the texts, and none of the results. *)
Lemma request_is_role_content_projection_witness :
  snd (handleSubmit Sample.parse (Sample.later [] None) Sample.returning)
  = Some [{| turn_role := user; turn_content := js "Show me the open issues" |};
          {| turn_role := assistant; turn_content := js "Here are the issues." |};
          {| turn_role := user; turn_content := js "and the pull requests?" |}].
Proof.
  rewrite (request_is_role_content_projection Sample.parse
             (Sample.later [] None) Sample.returning).
  reflexivity.
Defined.

Lemma tables_show_first_50_witness :
  showsFirst50 issues Sample.report
    {| headingCount := 60;
       tableRows := Some (indexed (Sample.entries 50)) |}.
Proof.
  apply (proj1 (proj2 (tables_show_first_50 Sample.lower Sample.engine Sample.dialogue
                         Sample.report))).
  vm_compute. reflexivity.
Defined.
(* ===================================================================== *)
(** ** The ids of a conversation *)
(* ===================================================================== *)

Lemma js_cons (c : ascii) (s : string) :
  js (String c s) = N_of_ascii c :: js s.
Proof. reflexivity. Qed.

(** A decimal digit is one of ten code units. *)
Lemma isDigit_cases (c : N) :
  isDigit c = true ->
  (c = 48 \/ c = 49 \/ c = 50 \/ c = 51 \/ c = 52 \/ c = 53 \/ c = 54
   \/ c = 55 \/ c = 56 \/ c = 57)%N.
Proof.
  unfold isDigit. rewrite andb_true_iff, !N.leb_le. lia.
Qed.

Ltac digit_cases c H :=
  apply isDigit_cases in H;
  repeat (destruct H as [H|H]; [subst c|]); [..|subst c].

Lemma isDigit_not_space (c : N) : isDigit c = true -> isWhiteSpace c = false.
Proof. intros H. digit_cases c H; reflexivity. Qed.

Lemma isDigit_not_radix (c : N) : isDigit c = true -> radixOf c = None.
Proof. intros H. digit_cases c H; reflexivity. Qed.

Lemma isDigit_no_sign (c : N) :
  isDigit c = true ->
  (c =? 0x2B)%N = false /\ (c =? 0x2D)%N = false /\ (c =? 0x49)%N = false.
Proof. intros H. digit_cases c H; repeat split; reflexivity. Qed.

(** [trim] leaves a text alone that has no white space at its ends. *)
Lemma trimStart_head (c : N) (s : jsstring) :
  isWhiteSpace c = false -> trimStart (c :: s) = c :: s.
Proof. intros H. cbn [trimStart]. rewrite H. reflexivity. Qed.

Lemma trim_digits (s : jsstring) :
  forallb isDigit s = true -> trim s = s.
Proof.
  intros H. unfold trim.
  assert (Hs : forall t, forallb isDigit t = true -> trimStart t = t).
  { intros [|c t] Ht; [reflexivity|]. cbn [forallb] in Ht.
    apply andb_true_iff in Ht. destruct Ht as [Hc _].
    apply trimStart_head, isDigit_not_space, Hc. }
  rewrite (Hs s H). rewrite Hs.
  - apply rev_involutive.
  - rewrite forallb_forall in *. intros x Hx. apply H, in_rev, Hx.
Qed.

Lemma span_all (p : N -> bool) (s : jsstring) :
  forallb p s = true -> span p s = (s, []).
Proof.
  induction s as [|c s IH]; [reflexivity|]. cbn [forallb span].
  intros H. apply andb_true_iff in H. destruct H as [Hc Hs].
  rewrite Hc, (IH Hs). reflexivity.
Qed.

(** A string of decimal digits denotes the Number value for the integer
    it spells. *)
Lemma Number_digits (s : jsstring) :
  s <> [] -> forallb isDigit s = true ->
  Number s = Some (decimalValue (valueOf 10 s) 0).
Proof.
  intros Hne H. unfold Number. rewrite (trim_digits s H).
  destruct s as [|c u]; [congruence|].
  pose proof H as H'. cbn [forallb] in H'.
  apply andb_true_iff in H'. destruct H' as [Hc Hu].
  destruct (isDigit_no_sign c Hc) as (Hplus & Hminus & HI).
  rewrite Hplus, Hminus.
  assert (Hr : (if (c =? 0x30)%N
                then match u with
                     | r :: ds => option_map (fun radix => (radix, ds)) (radixOf r)
                     | [] => None
                     end
                else None) = None).
  { destruct (c =? 0x30)%N; [|reflexivity].
    destruct u as [|r ds]; [reflexivity|].
    cbn [forallb] in Hu. apply andb_true_iff in Hu. destruct Hu as [Hd _].
    rewrite (isDigit_not_radix r Hd). reflexivity. }
  rewrite Hr. unfold unsignedDecimal.
  assert (HInf : jseq (c :: u) (js "Infinity") = false).
  { change (js "Infinity") with (0x49%N :: js "nfinity").
    cbn [jseq]. rewrite HI. reflexivity. }
  rewrite HInf, (span_all isDigit (c :: u) H), app_nil_r.
  reflexivity.
Qed.

Lemma isDigit_of_uint (d : Decimal.uint) :
  forallb isDigit (js (NilEmpty.string_of_uint d)) = true.
Proof.
  induction d as [|d IH|d IH|d IH|d IH|d IH|d IH|d IH|d IH|d IH|d IH];
    [reflexivity|..];
    cbn [NilEmpty.string_of_uint]; rewrite js_cons; cbn [forallb];
    rewrite IH; reflexivity.
Qed.

Lemma valueOf_of_uint_acc (d : Decimal.uint) (acc : positive) :
  fold_left (fun a c => (10 * a + digitValue c)%Z)
    (js (NilEmpty.string_of_uint d)) (Z.pos acc)
  = Z.pos (Pos.of_uint_acc d acc).
Proof.
  revert acc; induction d as [|d IH|d IH|d IH|d IH|d IH|d IH|d IH|d IH|d IH|d IH];
    intros acc; [reflexivity|..];
    cbn [NilEmpty.string_of_uint Pos.of_uint_acc]; rewrite js_cons;
    cbn [fold_left]; rewrite <- IH; f_equal;
    match goal with
    | |- context [digitValue (N_of_ascii ?c)] =>
        let v := eval vm_compute in (digitValue (N_of_ascii c)) in
        change (digitValue (N_of_ascii c)) with v
    end;
    lia.
Qed.

Lemma valueOf_of_uint (d : Decimal.uint) :
  valueOf 10 (js (NilEmpty.string_of_uint d)) = Z.of_N (N.of_uint d).
Proof.
  unfold N.of_uint, valueOf.
  induction d as [|d IH|d IH|d IH|d IH|d IH|d IH|d IH|d IH|d IH|d IH];
    [reflexivity | exact IH | ..];
    cbn [NilEmpty.string_of_uint Pos.of_uint]; rewrite js_cons;
    cbn [fold_left];
    match goal with
    | |- context [digitValue (N_of_ascii ?c)] =>
        let v := eval vm_compute in (digitValue (N_of_ascii c)) in
        change (digitValue (N_of_ascii c)) with v
    end;
    cbn [Z.mul Z.add];
    rewrite valueOf_of_uint_acc; reflexivity.
Qed.

(** The digits of a timestamp. *)
Lemma toString_digits (n : N) :
  toString n <> [] /\ forallb isDigit (toString n) = true
  /\ valueOf 10 (toString n) = Z.of_N n.
Proof.
  unfold toString.
  pose proof (DecimalN.Unsigned.of_to n) as Hn.
  destruct (N.to_uint n) as [|d|d|d|d|d|d|d|d|d|d];
    [subst n; repeat split; discriminate | ..];
    match goal with
    | |- context [NilZero.string_of_uint ?u] =>
        change (NilZero.string_of_uint u) with (NilEmpty.string_of_uint u);
        rewrite <- Hn;
        (split; [discriminate|]);
        (split; [apply isDigit_of_uint | apply valueOf_of_uint])
    end.
Qed.

(** The id made from a timestamp reads back as the Number value for it,
    never as NaN. *)
Lemma Number_toString (n : N) :
  Number (toString n) = Some (decimalValue (Z.of_N n) 0).
Proof.
  destruct (toString_digits n) as (Hne & Hd & Hv).
  rewrite (Number_digits _ Hne Hd), Hv. reflexivity.
Qed.

Lemma floorLog2_integer (n : Z) : (0 < n)%Z -> floorLog2 n 1 = Z.log2 n.
Proof.
  intros Hpos. unfold floorLog2, shifted.
  change (Z.log2 1) with 0%Z. rewrite Z.sub_0_r.
  pose proof (Z.log2_nonneg n).
  destruct (Z.leb_spec 0 (Z.log2 n)) as [_|]; [|lia].
  rewrite Z.mul_1_l.
  pose proof (Z.log2_spec n Hpos) as [Hlo _].
  destruct (Z.leb_spec (2 ^ Z.log2 n) n) as [_|]; [reflexivity | lia].
Qed.

(** An integer below 2^53 is a double: a timestamp reads back exactly. *)
Lemma decimalValue_exact (n : Z) :
  (0 <= n < 2 ^ 53)%Z -> decimalValue n 0 = Finite (n * 2 ^ 1074).
Proof.
  intros Hn. unfold decimalValue.
  destruct (Z.eqb_spec n 0) as [->|Hz]; [reflexivity|].
  cbn [Z.leb Z.compare]. change (10 ^ 0)%Z with 1%Z. rewrite Z.mul_1_r.
  assert (Hpos : (0 < n)%Z) by lia.
  assert (Hl : (0 <= Z.log2 n < 53)%Z).
  { split; [apply Z.log2_nonneg|]. apply Z.log2_lt_pow2; lia. }
  unfold roundToDouble. rewrite (floorLog2_integer n Hpos).
  rewrite Z.max_l by lia.
  assert (Hlt : (n * 2 ^ 1074 <? 2 ^ 2098)%Z = true).
  { apply Z.ltb_lt.
    apply Z.lt_trans with (2 ^ 53 * 2 ^ 1074)%Z.
    - apply Z.mul_lt_mono_pos_r; [apply Z.pow_pos_nonneg; lia | lia].
    - rewrite <- Z.pow_add_r by lia. apply Z.pow_lt_mono_r; lia. }
  unfold shifted. destruct (Z.leb_spec 0 (Z.log2 n - 52)) as [H0|H0].
  - replace (Z.log2 n - 52)%Z with 0%Z by lia.
    change (1 * 2 ^ 0)%Z with 1%Z. change (0 + 1074)%Z with 1074%Z.
    unfold roundHalfEven. rewrite Z.mod_1_r, Z.div_1_r.
    cbn [Z.mul Z.compare]. rewrite Hlt. reflexivity.
  - unfold roundHalfEven. rewrite Z.mod_1_r, Z.div_1_r.
    cbn [Z.mul Z.compare].
    replace (n * 2 ^ (- (Z.log2 n - 52)) * 2 ^ (Z.log2 n - 52 + 1074))%Z
      with (n * 2 ^ 1074)%Z.
    + rewrite Hlt. reflexivity.
    + rewrite <- Z.mul_assoc, <- Z.pow_add_r by lia. do 2 f_equal. lia.
Qed.

Lemma Number_toString_exact (n : N) :
  (n < 2 ^ 53)%N -> Number (toString n) = Some (Finite (Z.of_N n * 2 ^ 1074)).
Proof.
  intros H. rewrite Number_toString, decimalValue_exact; [reflexivity|].
  change (2 ^ 53)%Z with (Z.of_N (2 ^ 53)). lia.
Qed.

(** Timestamps are below 2^53, where the ids made from them compare as
    the timestamps do. *)
Lemma older_timestamp_is_smaller (a b : N) :
  (a < b)%N -> (b < 2 ^ 53)%N ->
  (0 < subSign (Number (toString b)) (Number (toString a)))%Z.
Proof.
  intros Hab Hb.
  rewrite (Number_toString_exact b Hb), (Number_toString_exact a) by lia.
  cbn [subSign].
  assert (H : (0 < Z.of_N b * 2 ^ 1074 - Z.of_N a * 2 ^ 1074)%Z).
  { rewrite <- Z.mul_sub_distr_r. apply Z.mul_pos_pos; [lia|].
    apply Z.pow_pos_nonneg; lia. }
  apply Z.sgn_pos_iff in H. lia.
Qed.

(* ===================================================================== *)
(** ** More about [handleSubmit] *)
(* ===================================================================== *)

Lemma trimStart_app (s t : jsstring) :
  trimStart (s ++ t)
  = if forallb isWhiteSpace s then trimStart t else trimStart s ++ t.
Proof.
  induction s as [|c s IH]; [reflexivity|].
  cbn [app trimStart forallb]. destruct (isWhiteSpace c); [exact IH | reflexivity].
Qed.

Lemma trim_blank (s : jsstring) :
  forallb isWhiteSpace s = true -> trim s = [].
Proof.
  intros H. unfold trim. apply trimStart_nil_iff in H. rewrite H. reflexivity.
Qed.

Lemma forallb_rev' {A : Type} (f : A -> bool) (l : list A) :
  forallb f (rev l) = forallb f l.
Proof.
  induction l as [|x l IH]; [reflexivity|].
  cbn [rev forallb]. rewrite forallb_app, IH. cbn [forallb].
  rewrite andb_true_r. apply andb_comm.
Qed.

(** White space at the end of a line is not part of its trimmed text. *)
Lemma trim_app_blank (s t : jsstring) :
  forallb isWhiteSpace t = true -> trim (s ++ t) = trim s.
Proof.
  intros Ht. unfold trim. rewrite trimStart_app.
  destruct (forallb isWhiteSpace s) eqn:Hs.
  - apply trimStart_nil_iff in Ht. rewrite Ht.
    apply trimStart_nil_iff in Hs. rewrite Hs. reflexivity.
  - rewrite rev_app_distr, trimStart_app.
    rewrite forallb_rev', Ht. reflexivity.
Qed.

Section LoopFacts.

Variable JSON_parse : jsstring -> option StreamEvent.
Variable assistantId : jsstring.

(** The loop in one piece: the chunks are folded in, and then the final
    pass runs or the failure is thrown from the state reached. *)
Lemma readLoop_fold (values : list (list byte)) (fail : option jsstring) (st : Client) :
  readLoop JSON_parse assistantId st values fail
  = match fail with
    | None => Normal (onDone JSON_parse assistantId
                        (fold_left (onChunk JSON_parse assistantId) values st))
    | Some message =>
        Throw (fold_left (onChunk JSON_parse assistantId) values st) message
    end.
Proof.
  revert st; induction values as [|v values IH]; intros st.
  - destruct fail; reflexivity.
  - cbn [readLoop fold_left]. apply IH.
Qed.

Lemma fold_onChunk_texts (values : list (list byte)) (st : Client) :
  fold_left (onChunk JSON_parse assistantId) values st
  = fold_left (onText JSON_parse assistantId) (List.map TextDecoder.decode values) st.
Proof.
  revert st; induction values as [|v values IH]; intros st; [reflexivity|].
  cbn [fold_left List.map]. apply IH.
Qed.

(** The state in the middle of a stream in terms of the text so far: the
    complete lines have gone through the loop, the rest is buffered. *)
Lemma onTexts_whole (texts : list jsstring) (st : Client) :
  ~ In LF (buffer st) ->
  fold_left (onText JSON_parse assistantId) texts st
  = fold_left (processLine JSON_parse assistantId)
      (removelast (split (buffer st ++ concat texts)))
      (setBuffer (last (split (buffer st ++ concat texts)) []) st).
Proof.
  revert st; induction texts as [|t texts IH]; intros st Hb.
  - cbn [concat fold_left]. rewrite app_nil_r, (split_no_LF _ Hb).
    cbn. rewrite setBuffer_buffer. reflexivity.
  - cbn [concat fold_left]. rewrite IH.
    + unfold onText. cbv zeta.
      rewrite !fold_processLine_setBuffer. cbn [buffer setBuffer].
      rewrite app_assoc, (split_app (buffer st ++ t)).
      rewrite removelast_app by apply split_not_nil.
      rewrite last_app_ne by apply split_not_nil.
      rewrite fold_left_app. reflexivity.
    + unfold onText. cbv zeta.
      rewrite fold_processLine_setBuffer. cbn [buffer setBuffer].
      apply last_split_no_LF.
Qed.

(** A property of the client that every line and the buffer keep is kept
    by the whole loop, however it ends. *)
Lemma loop_keeps (P : Client -> Prop) :
  (forall st line, P st -> P (processLine JSON_parse assistantId st line)) ->
  (forall st line, P st -> P (processFinalLine JSON_parse assistantId st line)) ->
  (forall st b, P st -> P (setBuffer b st)) ->
  forall values fail st,
    P st -> P (stateOf (readLoop JSON_parse assistantId st values fail)).
Proof.
  intros Hl Hf Hb.
  assert (Hfold : forall (f : Client -> jsstring -> Client) lines st,
             (forall st line, P st -> P (f st line)) ->
             P st -> P (fold_left f lines st)).
  { intros f lines. induction lines as [|l lines IH]; intros st Hstep H; [exact H|].
    cbn [fold_left]. apply IH; [exact Hstep | apply Hstep; exact H]. }
  induction values as [|v values IH]; intros fail st H.
  - destruct fail; cbn [readLoop stateOf]; [exact H|].
    unfold onDone. destruct (truthy (buffer st)); [|exact H].
    apply Hfold; [exact Hf | exact H].
  - cbn [readLoop]. apply IH. unfold onChunk, onText. cbv zeta.
    apply Hfold; [exact Hl|]. apply Hb. exact H.
Qed.

End LoopFacts.

Section SubmitFacts.

Variable JSON_parse : jsstring -> option StreamEvent.

(** [handleSubmit] over a response with a body: the loop from [started],
    the error message when the loop throws, and the [finally] block. *)
Lemma handleSubmit_stream (env : Env) (st : Client) (r : Response) (stream : Stream) :
  truthy (trim (input st)) = true -> isLoading st = false ->
  fetch env = Resolved r -> ok r = true -> body r = Some stream ->
  handleSubmit JSON_parse env st
  = (settled
       match readLoop JSON_parse (toString (nowAssistant env)) (started env st)
               (chunks stream) (failure stream) with
       | Normal st' => st'
       | Throw st' message =>
           setMessages (fun prev => prev ++ [errorMessage env message]) st'
       end,
     Some (requestBody env st)).
Proof.
  intros Hi Hl Hf Hok Hb. unfold handleSubmit, tryFetch.
  rewrite Hi, Hl, Hf, Hok, Hb. reflexivity.
Qed.

(** [handleSubmit] when no response body is read: the request failed, or
    the response has no body. *)
Lemma handleSubmit_no_stream (env : Env) (st : Client) :
  truthy (trim (input st)) = true -> isLoading st = false ->
  match fetch env with
  | Rejected message =>
      messages (fst (handleSubmit JSON_parse env st))
      = messages st ++ [ChatInterface.userMessage env st; errorMessage env message]
  | Resolved r =>
      if ok r then
        match body r with
        | Some _ => True
        | None => messages (fst (handleSubmit JSON_parse env st))
                  = messages st ++ [ChatInterface.userMessage env st; assistantMessage env]
        end
      else messages (fst (handleSubmit JSON_parse env st))
           = messages st ++ [ChatInterface.userMessage env st;
                             errorMessage env (js "Failed to get response")]
  end.
Proof.
  intros Hi Hl. unfold handleSubmit, tryFetch. rewrite Hi, Hl.
  destruct (fetch env) as [message|r]; cbn.
  - rewrite <- app_assoc. reflexivity.
  - destruct (ok r); cbn.
    + destruct (body r); [exact I|]. cbn. rewrite <- app_assoc. reflexivity.
    + rewrite <- app_assoc. reflexivity.
Qed.

(** A submit with nothing but white space in the input, or while an
    exchange is running, changes nothing and sends nothing. *)
Theorem blank_submit_is_ignored (env : Env) (st : Client) :
  forallb isWhiteSpace (input st) = true \/ isLoading st = true ->
  handleSubmit JSON_parse env st = (st, None).
Proof.
  intros [H|H]; unfold handleSubmit.
  - rewrite (trim_blank _ H). reflexivity.
  - rewrite H, orb_true_r. reflexivity.
Qed.

Lemma processLine_form (aid : jsstring) (st : Client) (line : jsstring) :
  input (processLine JSON_parse aid st line) = input st
  /\ isLoading (processLine JSON_parse aid st line) = isLoading st.
Proof.
  unfold processLine, tryLine. line_cases JSON_parse line; split; reflexivity.
Qed.

Lemma processFinalLine_form (aid : jsstring) (st : Client) (line : jsstring) :
  input (processFinalLine JSON_parse aid st line) = input st
  /\ isLoading (processFinalLine JSON_parse aid st line) = isLoading st.
Proof.
  unfold processFinalLine, tryFinalLine.
  line_cases JSON_parse line; split; reflexivity.
Qed.

(** However the exchange ends - the request fails, the response has no
    body, the stream closes or breaks - the form is ready again: the input
    is empty, nothing is loading and the tool indicator is gone. *)
Theorem submit_leaves_form_ready (env : Env) (st : Client) :
  truthy (trim (input st)) = true -> isLoading st = false ->
  let st' := fst (handleSubmit JSON_parse env st) in
  input st' = []
  /\ isLoading st' = false
  /\ currentToolCalls st' = []
  /\ currentToolResults st' = []
  /\ indicator st' = None.
Proof.
  intros Hi Hl st'.
  assert (H : input st' = [] /\ isLoading st' = false
              /\ currentToolCalls st' = [] /\ currentToolResults st' = []).
  { subst st'. unfold handleSubmit. rewrite Hi, Hl.
    cbn [negb orb fst input isLoading currentToolCalls currentToolResults
         setIsLoading setCurrentToolCalls setCurrentToolResults].
    split; [|repeat split].
    unfold tryFetch. destruct (fetch env) as [message|r]; [reflexivity|].
    destruct (ok r); [|reflexivity]. cbn [negb].
    destruct (body r) as [stream|]; [|reflexivity].
    match goal with
      |- input match ?c with Normal a => a | Throw b m => _ end = [] =>
        assert (Hc : input (stateOf c) = []); [|destruct c; exact Hc]
    end.
    apply (loop_keeps JSON_parse (toString (nowAssistant env))
             (fun s => input s = [])); try reflexivity.
    - intros s line Hs. rewrite (proj1 (processLine_form _ s line)). exact Hs.
    - intros s line Hs. rewrite (proj1 (processFinalLine_form _ s line)). exact Hs.
    - intros s b Hs. exact Hs. }
  destruct H as (H1 & H2 & H3 & H4). repeat split; try assumption.
  unfold indicator. rewrite H2. reflexivity.
Qed.

(** When the request fails before a body is read - [fetch] rejects, or the
    status is not ok - the conversation gains the question and one
    message [Error: ...], and no answer. *)
Theorem failed_request_reports_error (env : Env) (st : Client) (message : jsstring) :
  truthy (trim (input st)) = true -> isLoading st = false ->
  fetch env = Rejected message
  \/ (exists r, fetch env = Resolved r /\ ok r = false
                /\ message = js "Failed to get response") ->
  messages (fst (handleSubmit JSON_parse env st))
  = messages st ++ [ChatInterface.userMessage env st; errorMessage env message].
Proof.
  intros Hi Hl H. pose proof (handleSubmit_no_stream env st Hi Hl) as Hn.
  destruct H as [H|(r & H & Hok & ->)]; rewrite H in Hn; [exact Hn|].
  rewrite Hok in Hn. exact Hn.
Qed.

Lemma fold_processLine_messages_setBuffer
    (aid b : jsstring) (lines : list jsstring) (st : Client) :
  messages (fold_left (processLine JSON_parse aid) lines (setBuffer b st))
  = messages (fold_left (processLine JSON_parse aid) lines st).
Proof. rewrite fold_processLine_setBuffer. reflexivity. Qed.

(** When reading the body fails after some chunks, what the complete
    lines received so far have done to the conversation stays, the
    unfinished rest of the buffer gets no final pass, and the message
    [Error: ...] comes last. *)
Theorem failed_read_keeps_progress
    (env : Env) (st : Client) (r : Response) (stream : Stream) (message : jsstring) :
  truthy (trim (input st)) = true -> isLoading st = false ->
  fetch env = Resolved r -> ok r = true -> body r = Some stream ->
  failure stream = Some message ->
  messages (fst (handleSubmit JSON_parse env st))
  = messages
      (fold_left (processLine JSON_parse (toString (nowAssistant env)))
         (removelast
            (split (concat (List.map TextDecoder.decode (chunks stream)))))
         (started env st))
    ++ [errorMessage env message].
Proof.
  intros Hi Hl Hf Hok Hb Hfail.
  rewrite (handleSubmit_stream env st r stream Hi Hl Hf Hok Hb).
  rewrite readLoop_fold, Hfail, fold_onChunk_texts.
  rewrite onTexts_whole by (cbn; tauto).
  cbn [fst settled messages setMessages setIsLoading setCurrentToolCalls
       setCurrentToolResults].
  rewrite fold_processLine_messages_setBuffer. reflexivity.
Qed.

End SubmitFacts.

Section ExchangeFacts.

Variable JSON_parse : jsstring -> option StreamEvent.

(** An exchange adds the question and one more message, or two more when
    the read of the body fails; no record of the stream adds or removes a
    message. *)
Theorem submit_adds_two_or_three_messages (env : Env) (st : Client) :
  truthy (trim (input st)) = true -> isLoading st = false ->
  length (messages (fst (handleSubmit JSON_parse env st)))
  = length (messages st)
    + match fetch env with
      | Rejected _ => 2
      | Resolved r =>
          if ok r then
            match body r with
            | Some stream =>
                match failure stream with Some _ => 3 | None => 2 end
            | None => 2
            end
          else 2
      end.
Proof.
  intros Hi Hl. pose proof (handleSubmit_no_stream JSON_parse env st Hi Hl) as Hn.
  destruct (fetch env) as [message|r] eqn:Hf.
  - rewrite Hn, length_app. reflexivity.
  - destruct (ok r) eqn:Hok; [|rewrite Hn, length_app; reflexivity].
    destruct (body r) as [stream|] eqn:Hb; [|rewrite Hn, length_app; reflexivity].
    rewrite (handleSubmit_stream JSON_parse env st r stream Hi Hl Hf Hok Hb).
    cbn [fst settled messages setIsLoading setCurrentToolCalls setCurrentToolResults].
    assert (Hk : length (messages
                   (stateOf (readLoop JSON_parse (toString (nowAssistant env))
                               (started env st) (chunks stream) (failure stream))))
                 = length (messages st) + 2).
    { apply (loop_keeps JSON_parse (toString (nowAssistant env))
               (fun s => length (messages s) = length (messages st) + 2)).
      - intros s line Hs. rewrite processLine_length. exact Hs.
      - intros s line Hs. rewrite processFinalLine_length. exact Hs.
      - intros s b Hs. exact Hs.
      - cbn. rewrite !length_app. cbn. lia. }
    rewrite readLoop_fold in *. destruct (failure stream); cbn in *.
    + rewrite length_app, Hk. cbn. lia.
    + exact Hk.
Qed.

Lemma processLine_frame (aid : jsstring) (st : Client) (line : jsstring)
    (i : nat) (m : Message) :
  id m <> aid ->
  nth_error (messages st) i = Some m ->
  nth_error (messages (processLine JSON_parse aid st line)) i = Some m.
Proof.
  intros Hid Hm. apply jseq_false_iff in Hid.
  unfold processLine, tryLine.
  line_cases JSON_parse line; cbn; try exact Hm;
    rewrite nth_error_map, Hm; cbn;
    unfold withContent, withToolCall, withToolResult, withDone;
    rewrite Hid; reflexivity.
Qed.

Lemma processFinalLine_frame (aid : jsstring) (st : Client) (line : jsstring)
    (i : nat) (m : Message) :
  id m <> aid ->
  nth_error (messages st) i = Some m ->
  nth_error (messages (processFinalLine JSON_parse aid st line)) i = Some m.
Proof.
  intros Hid Hm. apply jseq_false_iff in Hid.
  unfold processFinalLine, tryFinalLine.
  line_cases JSON_parse line; cbn; try exact Hm;
    rewrite nth_error_map, Hm; cbn;
    unfold withContent, withToolCall, withToolResult, withDone;
    rewrite Hid; reflexivity.
Qed.

(** The messages of the whole exchange, whatever the response: the
    messages after the loop, or those of [handleSubmit_no_stream]. *)
Lemma submit_keeps (env : Env) (st : Client) (P : list Message -> Prop) :
  truthy (trim (input st)) = true -> isLoading st = false ->
  (forall l x, P l -> P (l ++ [x])) ->
  (forall aid s line, aid = toString (nowAssistant env) ->
     P (messages s) -> P (messages (processLine JSON_parse aid s line))) ->
  (forall aid s line, aid = toString (nowAssistant env) ->
     P (messages s) -> P (messages (processFinalLine JSON_parse aid s line))) ->
  P (messages st) ->
  P (messages (fst (handleSubmit JSON_parse env st))).
Proof.
  intros Hi Hl Happ Hline Hfinal H0.
  pose proof (handleSubmit_no_stream JSON_parse env st Hi Hl) as Hn.
  assert (H2 : forall x y, P (messages st ++ [x; y])).
  { intros x y. change [x; y] with ([x] ++ [y]). rewrite app_assoc.
    apply Happ, Happ, H0. }
  destruct (fetch env) as [message|r] eqn:Hf; [rewrite Hn; apply H2|].
  destruct (ok r) eqn:Hok; [|rewrite Hn; apply H2].
  destruct (body r) as [stream|] eqn:Hb; [|rewrite Hn; apply H2].
  rewrite (handleSubmit_stream JSON_parse env st r stream Hi Hl Hf Hok Hb).
  cbn [fst settled messages setIsLoading setCurrentToolCalls setCurrentToolResults].
  assert (Hk : P (messages
                 (stateOf (readLoop JSON_parse (toString (nowAssistant env))
                             (started env st) (chunks stream) (failure stream))))).
  { apply (loop_keeps JSON_parse (toString (nowAssistant env))
             (fun s => P (messages s))).
    - intros s line Hs. apply Hline; [reflexivity | exact Hs].
    - intros s line Hs. apply Hfinal; [reflexivity | exact Hs].
    - intros s b Hs. exact Hs.
    - cbn. apply Happ, Happ, H0. }
  destruct (readLoop JSON_parse (toString (nowAssistant env)) (started env st)
              (chunks stream) (failure stream)); cbn in *.
  - exact Hk.
  - apply Happ, Hk.
Qed.

(** An exchange does not rewrite the conversation: a message that was
    there before, with an id other than the one the new answer gets, is at
    its place and unchanged afterwards, whatever the stream carried and
    however it ended. *)
Theorem submit_keeps_history (env : Env) (st : Client) (i : nat) (m : Message) :
  truthy (trim (input st)) = true -> isLoading st = false ->
  nth_error (messages st) i = Some m ->
  id m <> toString (nowAssistant env) ->
  nth_error (messages (fst (handleSubmit JSON_parse env st))) i = Some m.
Proof.
  intros Hi Hl Hm Hid.
  apply (submit_keeps env st (fun l => nth_error l i = Some m) Hi Hl).
  - intros l x H. rewrite nth_error_app1; [exact H|].
    apply nth_error_Some. rewrite H. discriminate.
  - intros aid s line -> H. apply processLine_frame; assumption.
  - intros aid s line -> H. apply processFinalLine_frame; assumption.
  - exact Hm.
Qed.

Lemma processLine_ids_roles (aid : jsstring) (st : Client) (line : jsstring) :
  List.map (fun m => (id m, role m)) (messages (processLine JSON_parse aid st line))
  = List.map (fun m => (id m, role m)) (messages st).
Proof.
  unfold processLine, tryLine.
  line_cases JSON_parse line; cbn; try reflexivity;
    rewrite map_map; apply map_ext; intros m;
    unfold withContent, withToolCall, withToolResult, withDone;
    destruct (jseq (id m) aid); reflexivity.
Qed.

Lemma processFinalLine_ids_roles (aid : jsstring) (st : Client) (line : jsstring) :
  List.map (fun m => (id m, role m)) (messages (processFinalLine JSON_parse aid st line))
  = List.map (fun m => (id m, role m)) (messages st).
Proof.
  unfold processFinalLine, tryFinalLine.
  line_cases JSON_parse line; cbn; try reflexivity;
    rewrite map_map; apply map_ext; intros m;
    unfold withContent, withToolCall, withToolResult, withDone;
    destruct (jseq (id m) aid); reflexivity.
Qed.

(** The ids and roles of the conversation after an exchange. *)
Lemma appended_ids_and_roles (env : Env) (st : Client) :
  truthy (trim (input st)) = true -> isLoading st = false ->
  exists added,
    List.map (fun m => (id m, role m)) (messages (fst (handleSubmit JSON_parse env st)))
    = List.map (fun m => (id m, role m)) (messages st)
      ++ (toString (nowUser env), user) :: added
    /\ Forall (fun p => p = (toString (nowAssistant env), assistant)
                        \/ p = (toString (nowError env), assistant)) added.
Proof.
  intros Hi Hl.
  pose proof (handleSubmit_no_stream JSON_parse env st Hi Hl) as Hn.
  destruct (fetch env) as [message|r] eqn:Hf.
  { exists [(toString (nowError env), assistant)].
    rewrite Hn, map_app. split; [reflexivity | repeat first [apply Forall_nil | apply Forall_cons; [auto|]]]. }
  destruct (ok r) eqn:Hok.
  2:{ exists [(toString (nowError env), assistant)].
      rewrite Hn, map_app. split; [reflexivity | repeat first [apply Forall_nil | apply Forall_cons; [auto|]]]. }
  destruct (body r) as [stream|] eqn:Hb.
  2:{ exists [(toString (nowAssistant env), assistant)].
      rewrite Hn, map_app. split; [reflexivity | repeat first [apply Forall_nil | apply Forall_cons; [auto|]]]. }
  rewrite (handleSubmit_stream JSON_parse env st r stream Hi Hl Hf Hok Hb).
  cbn [fst settled messages setIsLoading setCurrentToolCalls setCurrentToolResults].
  assert (Hk : List.map (fun m => (id m, role m))
                 (messages (stateOf (readLoop JSON_parse (toString (nowAssistant env))
                                       (started env st) (chunks stream) (failure stream))))
               = List.map (fun m => (id m, role m)) (messages st)
                 ++ [(toString (nowUser env), user);
                     (toString (nowAssistant env), assistant)]).
  { apply (loop_keeps JSON_parse (toString (nowAssistant env))
             (fun s => List.map (fun m => (id m, role m)) (messages s)
                       = List.map (fun m => (id m, role m)) (messages st)
                         ++ [(toString (nowUser env), user);
                             (toString (nowAssistant env), assistant)])).
    - intros s line Hs. rewrite processLine_ids_roles. exact Hs.
    - intros s line Hs. rewrite processFinalLine_ids_roles. exact Hs.
    - intros s b Hs. exact Hs.
    - cbn. rewrite !map_app, <- app_assoc. reflexivity. }
  destruct (readLoop JSON_parse (toString (nowAssistant env)) (started env st)
              (chunks stream) (failure stream)) as [s|s message]; cbn in *.
  - exists [(toString (nowAssistant env), assistant)].
    split; [exact Hk | repeat first [apply Forall_nil | apply Forall_cons; [auto|]]].
  - exists [(toString (nowAssistant env), assistant);
            (toString (nowError env), assistant)].
    rewrite map_app, Hk, <- app_assoc.
    split; [reflexivity | repeat first [apply Forall_nil | apply Forall_cons; [auto|]]].
Qed.

(** An exchange changes no id and no role: the ids and roles of the
    conversation afterwards are those it had, followed by the question's
    and by those of the answer or the error message, each of which has a
    timestamp of this exchange as its id. *)
Theorem submit_only_appends_ids_and_roles (env : Env) (st : Client) :
  truthy (trim (input st)) = true -> isLoading st = false ->
  exists added,
    List.map (fun m => (id m, role m)) (messages (fst (handleSubmit JSON_parse env st)))
    = List.map (fun m => (id m, role m)) (messages st)
      ++ (toString (nowUser env), user) :: added
    /\ Forall (fun p => p = (toString (nowAssistant env), assistant)
                        \/ p = (toString (nowError env), assistant)) added.
Proof. exact (appended_ids_and_roles env st). Qed.

(** The ids of a conversation stay numbers: when no id reads as NaN
    before an exchange, none does afterwards, so the numeric sort of
    [MessageList] never compares a NaN. *)
Theorem conversation_ids_stay_numbers (env : Env) (st : Client) :
  truthy (trim (input st)) = true -> isLoading st = false ->
  Forall (fun m => Number (id m) <> None) (messages st) ->
  Forall (fun m => Number (id m) <> None)
    (messages (fst (handleSubmit JSON_parse env st))).
Proof.
  intros Hi Hl H.
  destruct (appended_ids_and_roles env st Hi Hl) as (added & E & Ha).
  assert (Hq : forall l : list Message,
             Forall (fun m => Number (id m) <> None) l
             <-> Forall (fun p : jsstring * Role => Number (fst p) <> None)
                   (List.map (fun m => (id m, role m)) l)).
  { intros l. rewrite Forall_map. reflexivity. }
  apply Hq. rewrite E. apply Forall_app. split; [apply Hq; exact H|].
  constructor.
  - cbn [fst]. rewrite Number_toString. discriminate.
  - eapply Forall_impl; [|exact Ha].
    intros p [->| ->]; cbn [fst]; rewrite Number_toString; discriminate.
Qed.

End ExchangeFacts.

Section AnswerFacts.

Variable JSON_parse : jsstring -> option StreamEvent.
Variable assistantId : jsstring.

Lemma processLine_content (st : Client) (line : jsstring) :
  assistantContent (processLine JSON_parse assistantId st line)
  = assistantContent st ++ contentOf JSON_parse line.
Proof.
  unfold processLine, tryLine, contentOf.
  destruct (jseq (trim line) []); [symmetry; apply app_nil_r|].
  destruct (startsWith (js "data: ") line); [|symmetry; apply app_nil_r].
  destruct (truthy (trim (slice 6 line))); [|symmetry; apply app_nil_r].
  cbn [negb].
  destruct (JSON_parse (trim (slice 6 line))) as [[ | | | | | ]|]; cbn;
    rewrite ?app_nil_r; reflexivity.
Qed.

Lemma processFinalLine_content (st : Client) (line : jsstring) :
  assistantContent (processFinalLine JSON_parse assistantId st line)
  = assistantContent st ++ contentOf JSON_parse line.
Proof.
  unfold processFinalLine, tryFinalLine, contentOf.
  destruct (jseq (trim line) []); [symmetry; apply app_nil_r|].
  destruct (startsWith (js "data: ") line); [|symmetry; apply app_nil_r].
  destruct (truthy (trim (slice 6 line))); [|symmetry; apply app_nil_r].
  cbn [negb].
  destruct (JSON_parse (trim (slice 6 line))) as [[ | | | | | ]|]; cbn;
    rewrite ?app_nil_r; reflexivity.
Qed.

Lemma fold_processLine_content (lines : list jsstring) (st : Client) :
  assistantContent (fold_left (processLine JSON_parse assistantId) lines st)
  = assistantContent st ++ concat (List.map (contentOf JSON_parse) lines).
Proof.
  revert st; induction lines as [|l lines IH]; intros st.
  - symmetry; apply app_nil_r.
  - cbn [fold_left List.map concat].
    rewrite IH, processLine_content, app_assoc. reflexivity.
Qed.

(** The text accumulated over a stream that closes: the content of the
    content records of the whole text, in order, the last line included
    when no line feed ends it. *)
Lemma readTexts_content (texts : list jsstring) (st : Client) :
  buffer st = [] ->
  assistantContent (readTexts JSON_parse assistantId st texts)
  = assistantContent st
    ++ concat (List.map (contentOf JSON_parse) (split (concat texts))).
Proof.
  intros Hb. rewrite readTexts_whole by (rewrite Hb; cbn; tauto).
  rewrite Hb. cbn [app].
  set (L := split (concat texts)).
  assert (HL : L = removelast L ++ [last L []])
    by (apply app_removelast_last, split_not_nil).
  rewrite HL at 3. rewrite map_app, concat_app. cbn [List.map concat].
  rewrite app_nil_r, app_assoc.
  set (s := fold_left _ (removelast L) _).
  assert (Hc : assistantContent s
               = assistantContent st
                 ++ concat (List.map (contentOf JSON_parse) (removelast L)))
    by (subst s; rewrite fold_processLine_content; reflexivity).
  assert (Hs : buffer s = last L [])
    by (subst s; rewrite fold_processLine_buffer; reflexivity).
  rewrite <- Hc. unfold onDone. rewrite Hs.
  destruct (last L []) as [|c rest] eqn:E.
  - cbn [truthy]. unfold contentOf. cbn. symmetry; apply app_nil_r.
  - cbn [truthy]. rewrite split_no_LF.
    + cbn [fold_left]. apply processFinalLine_content.
    + rewrite <- E. apply last_split_no_LF.
Qed.

Lemma processLine_answerAt (k : nat) (st : Client) (line : jsstring) :
  answerAt assistantId k st ->
  answerAt assistantId k (processLine JSON_parse assistantId st line).
Proof.
  intros (m & Hm & Hid & Hr & Hc). unfold answerAt, processLine, tryLine.
  line_cases JSON_parse line; cbn;
    try (exists m; repeat split; assumption);
    rewrite nth_error_map, Hm; cbn;
    unfold withContent, withToolCall, withToolResult, withDone;
    rewrite Hid, jseq_refl; eexists; split; try reflexivity; cbn;
    repeat split; assumption || reflexivity.
Qed.

Lemma processFinalLine_answerAt (k : nat) (st : Client) (line : jsstring) :
  answerAt assistantId k st ->
  answerAt assistantId k (processFinalLine JSON_parse assistantId st line).
Proof.
  intros (m & Hm & Hid & Hr & Hc). unfold answerAt, processFinalLine, tryFinalLine.
  line_cases JSON_parse line; cbn;
    try (exists m; repeat split; assumption);
    rewrite nth_error_map, Hm; cbn;
    unfold withContent, withToolCall, withToolResult, withDone;
    rewrite Hid, jseq_refl; eexists; split; try reflexivity; cbn;
    repeat split; assumption || reflexivity.
Qed.

Lemma isDone_false_cases (line : jsstring) :
  isDone JSON_parse line = false ->
  jseq (trim line) [] = true
  \/ startsWith (js "data: ") line = false
  \/ truthy (trim (slice 6 line)) = false
  \/ match JSON_parse (trim (slice 6 line)) with
     | Some (EvDone _ _) => False
     | _ => True
     end.
Proof.
  unfold isDone.
  destruct (jseq (trim line) []); [auto|].
  destruct (startsWith (js "data: ") line); [|auto].
  destruct (truthy (trim (slice 6 line))); [|auto].
  destruct (JSON_parse (trim (slice 6 line))) as [[ | | | | | ]|]; cbn;
    intros H; try discriminate H; auto.
Qed.

Lemma processLine_toolsAt (k : nat) (st : Client) (line : jsstring) :
  isDone JSON_parse line = false ->
  toolsAt assistantId k st ->
  toolsAt assistantId k (processLine JSON_parse assistantId st line).
Proof.
  intros Hd (m & Hm & Hid & Hc & Hr).
  apply isDone_false_cases in Hd.
  unfold toolsAt, processLine, tryLine.
  destruct (jseq (trim line) []); [exists m; auto|].
  destruct (startsWith (js "data: ") line); [|exists m; auto].
  destruct (truthy (trim (slice 6 line))); [|exists m; auto].
  cbn [negb].
  destruct Hd as [Hd|[Hd|[Hd|Hd]]]; try discriminate Hd.
  destruct (JSON_parse (trim (slice 6 line))) as [[ | | | | | ]|]; cbn;
    try (exists m; repeat split; assumption);
    try (destruct Hd);
    rewrite nth_error_map, Hm; cbn;
    unfold withContent, withToolCall, withToolResult;
    rewrite Hid, jseq_refl; eexists; split; try reflexivity; cbn;
    rewrite ?Hc, ?Hr; repeat split; assumption || reflexivity.
Qed.

Lemma fold_processLine_toolsAt (k : nat) (lines : list jsstring) (st : Client) :
  forallb (fun l => negb (isDone JSON_parse l)) lines = true ->
  toolsAt assistantId k st ->
  toolsAt assistantId k (fold_left (processLine JSON_parse assistantId) lines st).
Proof.
  revert st; induction lines as [|l lines IH]; intros st Hd H; [exact H|].
  cbn [forallb] in Hd. apply andb_true_iff in Hd. destruct Hd as [Hl Hd].
  cbn [fold_left]. apply IH; [exact Hd|].
  apply processLine_toolsAt; [|exact H].
  destruct (isDone JSON_parse l); [discriminate Hl | reflexivity].
Qed.

Lemma fold_processLine_isLoading (lines : list jsstring) (st : Client) :
  isLoading (fold_left (processLine JSON_parse assistantId) lines st) = isLoading st.
Proof.
  revert st; induction lines as [|l lines IH]; intros st; [reflexivity|].
  cbn [fold_left]. rewrite IH. apply (processLine_form JSON_parse).
Qed.

(** A line that does not start with the marker does nothing at all. *)
Lemma processLine_ignored (st : Client) (line : jsstring) :
  startsWith (js "data: ") line = false ->
  processLine JSON_parse assistantId st line = st.
Proof.
  intros H. unfold processLine. rewrite H.
  destruct (jseq (trim line) []); reflexivity.
Qed.

(** Lines that are not records - blank lines, comments, event names, a
    [data:] field without the space - can be put into a stream or taken
    out of it without any effect on the client, console included. *)
Theorem other_lines_are_ignored
    (st : Client) (pre noise post : jsstring) (values values' : list (list byte)) :
  buffer st = [] ->
  startsWith (js "data: ") noise = false ->
  ~ In LF noise ->
  last (split pre) [] = [] ->
  concat (List.map TextDecoder.decode values) = pre ++ noise ++ LF :: post ->
  concat (List.map TextDecoder.decode values') = pre ++ post ->
  readLoop JSON_parse assistantId st values None
  = readLoop JSON_parse assistantId st values' None.
Proof.
  intros Hb Hn Hlf Hpre Ht Ht'.
  rewrite !readLoop_texts. f_equal.
  rewrite !readTexts_whole by (rewrite Hb; simpl; tauto).
  rewrite Hb, Ht, Ht'. cbn [app].
  rewrite (split_app pre (noise ++ LF :: post)), (split_app pre post), Hpre.
  cbn [app]. rewrite (split_line noise post Hlf).
  assert (Hne : split post <> []) by apply split_not_nil.
  rewrite !removelast_app by (discriminate || exact Hne).
  rewrite !last_app_ne by (discriminate || exact Hne).
  replace (removelast (noise :: split post)) with (noise :: removelast (split post))
    by (destruct (split post); [tauto | reflexivity]).
  replace (last (noise :: split post) []) with (last (split post) [])
    by (destruct (split post); [tauto | reflexivity]).
  rewrite !fold_left_app. cbn [fold_left].
  rewrite (processLine_ignored _ noise Hn). reflexivity.
Qed.

End AnswerFacts.

Section AnswerTheorems.

Variable JSON_parse : jsstring -> option StreamEvent.

Lemma nth_error_snoc {A : Type} (l : list A) (x : A) :
  nth_error (l ++ [x]) (length l) = Some x.
Proof.
  rewrite nth_error_app2 by lia. rewrite Nat.sub_diag. reflexivity.
Qed.

(** When the loop starts, the answer is the message after the question. *)
Lemma started_answer (env : Env) (st : Client) :
  nth_error (messages (started env st)) (S (length (messages st)))
  = Some (assistantMessage env).
Proof.
  change (messages (started env st))
    with ((messages st ++ [ChatInterface.userMessage env st])
          ++ [assistantMessage env]).
  replace (S (length (messages st)))
    with (length (messages st ++ [ChatInterface.userMessage env st]))
    by (rewrite length_app; cbn; lia).
  apply nth_error_snoc.
Qed.

(** When the stream closes, the answer - the message after the question -
    shows exactly the content of the content records of the stream, in
    order and concatenated; no other record contributes to its text. *)
Theorem answer_is_concatenated_content
    (env : Env) (st : Client) (r : Response) (stream : Stream) :
  truthy (trim (input st)) = true -> isLoading st = false ->
  fetch env = Resolved r -> ok r = true -> body r = Some stream ->
  failure stream = None ->
  exists m,
    nth_error (messages (fst (handleSubmit JSON_parse env st)))
      (S (length (messages st))) = Some m
    /\ id m = toString (nowAssistant env)
    /\ role m = assistant
    /\ content m
       = concat (List.map (contentOf JSON_parse)
                   (split (concat (List.map TextDecoder.decode (chunks stream))))).
Proof.
  intros Hi Hl Hf Hok Hb Hfail.
  rewrite (handleSubmit_stream JSON_parse env st r stream Hi Hl Hf Hok Hb).
  rewrite Hfail.
  pose proof (loop_keeps JSON_parse (toString (nowAssistant env))
                (answerAt (toString (nowAssistant env)) (S (length (messages st))))
                (fun s line => processLine_answerAt JSON_parse _ _ s line)
                (fun s line => processFinalLine_answerAt JSON_parse _ _ s line)
                (fun s b H => H)
                (chunks stream) None (started env st)) as Hk.
  assert (H0 : answerAt (toString (nowAssistant env)) (S (length (messages st)))
                 (started env st)).
  { exists (assistantMessage env).
    split; [apply started_answer | repeat split; reflexivity]. }
  specialize (Hk H0).
  rewrite readLoop_texts in *. cbn [stateOf] in Hk.
  cbn [fst settled messages setIsLoading setCurrentToolCalls setCurrentToolResults].
  destruct Hk as (m & Hm & Hid & Hr & Hc).
  exists m. repeat split; try assumption.
  rewrite Hc, readTexts_content by reflexivity. reflexivity.
Qed.

(** While the stream is read and no done record has come, the answer
    holds exactly the tool calls and tool results that the state behind
    the tool indicator holds, and the indicator, once there is a call,
    lists the calls of the answer. *)
Theorem indicator_matches_answer
    (env : Env) (st : Client) (values : list (list byte)) :
  let aid := toString (nowAssistant env) in
  let reading := fold_left (onChunk JSON_parse aid) values (started env st) in
  forallb (fun l => negb (isDone JSON_parse l))
    (removelast (split (concat (List.map TextDecoder.decode values)))) = true ->
  exists m,
    nth_error (messages reading) (S (length (messages st))) = Some m
    /\ toolCalls m = Some (currentToolCalls reading)
    /\ toolResults m = Some (currentToolResults reading)
    /\ indicator reading
       = if 0 <? length (currentToolCalls reading) then toolCalls m else None.
Proof.
  intros aid reading Hd. subst reading.
  rewrite fold_onChunk_texts, onTexts_whole by (cbn; tauto).
  cbn [buffer started setBuffer app] in *.
  rewrite fold_processLine_setBuffer.
  set (lines := removelast _) in *.
  assert (H0 : toolsAt aid (S (length (messages st))) (started env st)).
  { exists (assistantMessage env).
    split; [apply started_answer | repeat split; reflexivity]. }
  destruct (fold_processLine_toolsAt JSON_parse aid _ lines _ Hd H0)
    as (m & Hm & _ & Hc & Hr).
  exists m. cbn [messages currentToolCalls currentToolResults setBuffer].
  repeat split; try assumption.
  unfold indicator. cbn [isLoading currentToolCalls setBuffer].
  rewrite fold_processLine_isLoading. cbn.
  rewrite Hc. reflexivity.
Qed.

Lemma startsWith_app_other (p l : jsstring) (c : N) :
  ~ In c p -> startsWith p (l ++ [c]) = startsWith p l.
Proof.
  revert l; induction p as [|x p IH]; intros l Hc; [destruct l; reflexivity|].
  destruct l as [|y l]; cbn [app startsWith].
  - destruct (N.eqb_spec x c) as [->|_]; [|reflexivity].
    exfalso. apply Hc. left; reflexivity.
  - rewrite IH by (intros H; apply Hc; right; exact H). reflexivity.
Qed.

Lemma startsWith_length (p l : jsstring) :
  startsWith p l = true -> length p <= length l.
Proof.
  revert l; induction p as [|x p IH]; intros l H; [cbn; lia|].
  destruct l as [|y l]; [discriminate|].
  cbn [startsWith] in H. apply andb_true_iff in H. destruct H as [_ H].
  cbn [length]. apply IH in H. lia.
Qed.

(** A carriage return at the end of a line changes nothing but the text
    of a console line. *)
Lemma processLine_CR (aid : jsstring) (st : Client) (line : jsstring) :
  shown (processLine JSON_parse aid st (line ++ [CR]))
  = shown (processLine JSON_parse aid st line).
Proof.
  unfold processLine, tryLine.
  rewrite (trim_app_blank line [CR] eq_refl).
  rewrite startsWith_app_other
    by (cbn; intros H; repeat (destruct H as [H|H]; [discriminate H|]); exact H).
  destruct (jseq (trim line) []); [reflexivity|].
  destruct (startsWith (js "data: ") line) eqn:Hs; [|reflexivity].
  apply startsWith_length in Hs.
  unfold slice. rewrite skipn_app.
  replace (6 - length line) with 0 by (cbn in Hs; lia).
  change (skipn 0 [CR]) with [CR].
  rewrite (trim_app_blank (skipn 6 line) [CR] eq_refl).
  destruct (negb (truthy (trim (skipn 6 line)))); [reflexivity|].
  destruct (JSON_parse (trim (skipn 6 line))) as [[ | | | | | ]|]; reflexivity.
Qed.

(** A stream whose lines end in a carriage return and a line feed builds
    the conversation that the same lines without the carriage return
    build. *)
Theorem carriage_returns_are_tolerated
    (aid : jsstring) (lines : list jsstring) (st : Client) :
  shown (fold_left (processLine JSON_parse aid)
           (List.map (fun l => l ++ [CR]) lines) st)
  = shown (fold_left (processLine JSON_parse aid) lines st).
Proof.
  revert st; induction lines as [|l lines IH]; intros st; [reflexivity|].
  cbn [List.map fold_left]. rewrite IH.
  apply fold_shown; [apply processLine_shown | apply processLine_CR].
Qed.

End AnswerTheorems.

(* ===================================================================== *)
(** ** More about [MessageList] *)
(* ===================================================================== *)

Lemma startsWith_app_l (a b s : jsstring) :
  startsWith (a ++ b) s = true -> startsWith a s = true.
Proof.
  revert s; induction a as [|x a IH]; intros s H; [destruct s; reflexivity|].
  destruct s as [|y s]; [discriminate|].
  cbn [app startsWith] in *. apply andb_true_iff in H. destruct H as [Hx H].
  rewrite Hx. apply IH. exact H.
Qed.

(** A text that includes a keyword includes every beginning of it. *)
Lemma includes_app_l (a b s : jsstring) :
  includes (a ++ b) s = true -> includes a s = true.
Proof.
  induction s as [|c s IH]; cbn [includes]; intros H.
  - rewrite orb_false_r in *. apply (startsWith_app_l a b). exact H.
  - apply orb_true_iff in H. apply orb_true_iff.
    destruct H as [H|H]; [left; apply (startsWith_app_l a b); exact H|].
    right. apply IH. exact H.
Qed.

Lemma includes_nil_r (p : jsstring) : p <> [] -> includes p [] = false.
Proof. destruct p; [tauto | reflexivity]. Qed.

(** The keyword tests with their longer keywords left out. *)
Lemma askedFor_short (userContent : jsstring) :
  askedForCommits userContent = includes (js "commit") userContent
  /\ askedForPullRequests userContent
     = includes (js "pull request") userContent || includes (js "pr") userContent.
Proof.
  unfold askedForCommits, askedForPullRequests. split.
  - pose proof (includes_app_l (js "commit") (js " history") userContent) as H1.
    pose proof (includes_app_l (js "commit") (js " frequency") userContent) as H2.
    change (js "commit" ++ js " history") with (js "commit history") in H1.
    change (js "commit" ++ js " frequency") with (js "commit frequency") in H2.
    destruct (includes (js "commit") userContent); [reflexivity|].
    destruct (includes (js "commit history") userContent);
      [discriminate (H1 eq_refl)|].
    destruct (includes (js "commit frequency") userContent);
      [discriminate (H2 eq_refl) | reflexivity].
  - pose proof (includes_app_l (js "pull request") (js "s") userContent) as H.
    change (js "pull request" ++ js "s") with (js "pull requests") in H.
    destruct (includes (js "pull request") userContent); [reflexivity|].
    destruct (includes (js "pull requests") userContent);
      [discriminate (H eq_refl)|].
    cbn. apply orb_false_r.
Qed.

(** The keywords "commit history", "commit frequency" and "pull requests"
    decide nothing: a text that has one of them has "commit", or "pull
    request", already. *)
Theorem longer_keywords_are_redundant (userContent : jsstring) :
  askedForCommits userContent = includes (js "commit") userContent
  /\ askedForPullRequests userContent
     = includes (js "pull request") userContent || includes (js "pr") userContent.
Proof. exact (askedFor_short userContent). Qed.

(** Case analysis on the keywords that are left in the goal. *)
Ltac bool_cases :=
  repeat match goal with
         | |- context [includes ?k ?c] => destruct (includes k c)
         end.

Section TableFacts.

Variable toLowerCase : jsstring -> jsstring.
Variable engineSort : list Message -> list Message.

(** The tables of an assistant message with results, block by block. *)
Lemma tablesOf_assistant (msgs : list Message) (message : Message)
    (r : ToolResult) (results : list ToolResult) :
  role message = assistant ->
  toolResults message = Some (r :: results) ->
  tablesOf toLowerCase engineSort msgs message
  = {| commitsTable := commitsBlock toLowerCase engineSort msgs message (r :: results);
       issuesTable := issuesBlock toLowerCase engineSort msgs message (r :: results);
       pullRequestsTable := pullRequestsBlock toLowerCase engineSort msgs message (r :: results) |}.
Proof. intros Hr Ht. unfold tablesOf. rewrite Hr, Ht. reflexivity. Qed.

(** A question that names pull requests gets no issues table, even when
    it names issues too; the pull requests it gets when there are any. *)
Theorem naming_pull_requests_hides_issues
    (msgs : list Message) (message : Message) (results : list ToolResult) :
  role message = assistant ->
  toolResults message = Some results ->
  includes (js "pull request") (userContent toLowerCase engineSort msgs message) = true ->
  issuesTable (tablesOf toLowerCase engineSort msgs message) = None
  /\ (hasPullRequests results = true ->
      pullRequestsTable (tablesOf toLowerCase engineSort msgs message)
      = Some (tableOf pullRequests results)).
Proof.
  intros Hr Ht Hp. destruct results as [|r results].
  - unfold tablesOf. rewrite Hr, Ht. split; [reflexivity | discriminate].
  - rewrite (tablesOf_assistant msgs message r results Hr Ht).
    cbn [issuesTable pullRequestsTable].
    unfold issuesBlock, pullRequestsBlock, shouldShowIssues, shouldShowPullRequests,
      askedForIssues, askedForPullRequests, isGeneralAnalysis.
    rewrite Hp. split.
    + destruct (hasIssues (r :: results)); cbn; [|reflexivity].
      bool_cases; reflexivity.
    + intros ->. reflexivity.
Qed.

(** The keyword "pr" is looked for anywhere in the text, inside words
    too: a question that has it, and neither "commit" nor "issue", gets
    no commits table and no issues table, whatever else it asks for. *)
Theorem pr_anywhere_narrows_the_tables
    (msgs : list Message) (message : Message) (results : list ToolResult) :
  role message = assistant ->
  toolResults message = Some results ->
  includes (js "pr") (userContent toLowerCase engineSort msgs message) = true ->
  includes (js "commit") (userContent toLowerCase engineSort msgs message) = false ->
  includes (js "issue") (userContent toLowerCase engineSort msgs message) = false ->
  commitsTable (tablesOf toLowerCase engineSort msgs message) = None
  /\ issuesTable (tablesOf toLowerCase engineSort msgs message) = None
  /\ (hasPullRequests results = true ->
      pullRequestsTable (tablesOf toLowerCase engineSort msgs message)
      = Some (tableOf pullRequests results)).
Proof.
  intros Hr Ht Hp Hc Hi. destruct results as [|r results].
  - unfold tablesOf. rewrite Hr, Ht. repeat split; [discriminate].
  - rewrite (tablesOf_assistant msgs message r results Hr Ht).
    cbn [commitsTable issuesTable pullRequestsTable].
    unfold commitsBlock, issuesBlock, pullRequestsBlock, shouldShowCommits,
      shouldShowIssues, shouldShowPullRequests, askedForIssues, isGeneralAnalysis.
    destruct (askedFor_short (userContent toLowerCase engineSort msgs message))
      as [-> ->].
    rewrite Hp, Hc, Hi. split; [|split].
    + destruct (hasCommits (r :: results)); cbn; [|reflexivity].
      bool_cases; reflexivity.
    + destruct (hasIssues (r :: results)); cbn; [|reflexivity].
      bool_cases; reflexivity.
    + intros ->. cbn. bool_cases; reflexivity.
Qed.

Lemma filter_none {A : Type} (f : A -> bool) (l : list A) :
  (forall x, In x l -> f x = false) -> filter f l = [].
Proof.
  induction l as [|x l IH]; intros H; [reflexivity|].
  cbn [filter]. rewrite (H x (or_introl eq_refl)).
  apply IH. intros y Hy. apply H. right; exact Hy.
Qed.

(** A message with no user message up to it - none in the list, or none
    whose id is at most its own - shows no table, whatever its results
    hold. *)
Theorem no_question_no_tables (msgs : list Message) (message : Message) :
  (forall m, In m msgs -> role m = user -> jsle (id m) (id message) = false) ->
  tablesOf toLowerCase engineSort msgs message = noTables.
Proof.
  intros H.
  assert (Hu : userContent toLowerCase engineSort msgs message = []).
  { unfold userContent, userMessage. rewrite filter_none; [reflexivity|].
    intros m Hm. destruct (role m) eqn:Hr; [|reflexivity].
    cbn. apply H; assumption. }
  unfold tablesOf. destruct (role message); [reflexivity|].
  destruct (toolResults message) as [[|r results]|]; try reflexivity.
  unfold commitsBlock, issuesBlock, pullRequestsBlock. rewrite Hu.
  unfold shouldShowCommits.
  change (shouldShowIssues []) with false.
  change (shouldShowPullRequests []) with false.
  change (askedForCommits []) with false.
  change (isGeneralAnalysis []) with false.
  cbn [orb andb]. rewrite andb_false_r.
  destruct (negb (hasIssues (r :: results)));
    destruct (negb (hasPullRequests (r :: results))); reflexivity.
Qed.

(** The commits table and the effect of [ChatInterface]: while any
    message of the list shows a commits table, the list does not scroll to
    the bottom by itself. *)
Theorem commits_table_stops_scrolling
    (msgs : list Message) (message : Message) (t : Table) (nearBottom : bool) :
  In message msgs ->
  commitsTable (tablesOf toLowerCase engineSort msgs message) = Some t ->
  scrollsToBottom msgs nearBottom = false.
Proof.
  intros Hin Ht. unfold scrollsToBottom.
  replace (ChatInterface.hasCommits msgs) with true; [reflexivity|].
  symmetry. unfold ChatInterface.hasCommits. apply existsb_exists.
  exists message. split; [exact Hin|].
  unfold tablesOf in Ht. destruct (role message); [discriminate|].
  destruct (toolResults message) as [[|r results]|]; try discriminate.
  cbn [commitsTable] in Ht. unfold commitsBlock, shouldShowCommits in Ht.
  destruct (hasCommits (r :: results)) eqn:Hc; [exact Hc | discriminate].
Qed.

End TableFacts.

(** A cell shows at most [n] code units of its text and, when it cut
    something off, three dots; a text of at most [n] code units is shown
    as it is. *)
Theorem truncated_cell_bounds (n : nat) (s : jsstring) :
  length (truncated n s) <= n + 3
  /\ firstn n (truncated n s) = firstn n s
  /\ (length s <= n -> truncated n s = s)
  /\ (n < length s ->
      truncated n s = firstn n s ++ js "..."
      /\ length (truncated n s) = n + 3).
Proof.
  unfold truncated.
  destruct (Nat.ltb_spec n (length s)) as [Hlt|Hge].
  - repeat split.
    + rewrite length_app, length_firstn. cbn. lia.
    + rewrite firstn_app, length_firstn.
      replace (n - Nat.min n (length s)) with 0 by lia.
      cbn [firstn]. rewrite app_nil_r, firstn_firstn.
      replace (Nat.min n n) with n by lia. reflexivity.
    + lia.
    + rewrite length_app, length_firstn. cbn. lia.
  - rewrite app_nil_r. repeat split.
    + rewrite length_firstn. lia.
    + rewrite firstn_firstn. replace (Nat.min n n) with n by lia. reflexivity.
    + intros _. apply firstn_all2. exact Hge.
    + lia.
    + lia.
Qed.

(* ===================================================================== *)
(** ** Facts about [ScreenshotGallery] *)
(* ===================================================================== *)

Lemma existsb_filter_nil {A : Type} (f : A -> bool) (l : list A) :
  existsb f l = true -> filter f l <> [].
Proof.
  induction l as [|x l IH]; [discriminate|].
  cbn [existsb filter]. destruct (f x); [discriminate | exact IH].
Qed.

(** The gallery is rendered with at least one screenshot, each with an
    image that is not empty, so it always shows its thumbnails; without a
    screenshot among the results it is not rendered at all. *)
Theorem gallery_is_never_empty (results : list ToolResult) :
  match gallery results with
  | Some screenshots =>
      screenshots <> []
      /\ Forall (fun s => data s <> []) screenshots
      /\ length screenshots <= length results
      /\ ScreenshotGallery.render screenshots None
         = ScreenshotGallery.Gallery (indexed screenshots) None
  | None => forall r, In r results -> screenshot r = None \/ screenshot r = Some []
  end.
Proof.
  unfold gallery. destruct (existsb hasScreenshot results) eqn:E.
  - assert (Hne : List.map toScreenshot (filter hasScreenshot results) <> []).
    { intros H. apply map_eq_nil in H. revert H. apply existsb_filter_nil, E. }
    split; [exact Hne|]. split; [|split].
    + apply Forall_map, Forall_forall. intros r Hr.
      apply filter_In in Hr. destruct Hr as [_ Hr].
      unfold hasScreenshot in Hr. unfold toScreenshot. cbn [data].
      destruct (screenshot r) as [[|c d]|]; discriminate.
    + rewrite length_map. apply filter_length_le.
    + unfold ScreenshotGallery.render.
      destruct (List.map toScreenshot (filter hasScreenshot results));
        [tauto | reflexivity].
  - intros r Hr.
    assert (H : hasScreenshot r = false).
    { destruct (hasScreenshot r) eqn:Hs; [|reflexivity].
      assert (existsb hasScreenshot results = true)
        by (apply existsb_exists; exists r; auto).
      congruence. }
    unfold hasScreenshot in H.
    destruct (screenshot r) as [[|c d]|]; auto; discriminate.
Qed.

Lemma offered_thumbnail (screenshots : list Screenshot) (idx : nat) :
  existsb (fun t => fst t =? idx) (indexed screenshots) = true ->
  idx < length screenshots.
Proof.
  intros H. apply existsb_exists in H. destruct H as [[i s] [Hin Hi]].
  cbn [fst] in Hi. apply Nat.eqb_eq in Hi. subst i.
  assert (Hf : In idx (List.map fst (indexed screenshots)))
    by (apply in_map_iff; exists (idx, s); auto).
  rewrite indexed_fst, indexed_length in Hf.
  apply in_seq in Hf. lia.
Qed.

(** Clicks on what the gallery shows can only open the lightbox on a
    screenshot that is there: from the closed lightbox, or from any
    selection inside the list, the render after the clicks never fails.
    A selection outside the list, which the clicks cannot make, fails the
    render of a non-empty list. *)
Theorem clicks_open_existing_screenshots
    (screenshots : list Screenshot) (cs : list ScreenshotGallery.Click)
    (selected selected' : option nat) :
  match selected with Some idx => idx < length screenshots | None => True end ->
  ScreenshotGallery.clicks screenshots selected cs = Some selected' ->
  ScreenshotGallery.render screenshots selected' <> ScreenshotGallery.Failure
  /\ (forall idx, screenshots <> [] -> length screenshots <= idx ->
        ScreenshotGallery.render screenshots (Some idx) = ScreenshotGallery.Failure).
Proof.
  intros Hsel Hc. split.
  - assert (Hin : match selected' with
                  | Some idx => idx < length screenshots
                  | None => True
                  end).
    { revert selected Hsel Hc. induction cs as [|c cs IH]; intros selected Hsel Hc.
      - cbn in Hc. injection Hc as <-. exact Hsel.
      - cbn [ScreenshotGallery.clicks] in Hc.
        destruct (ScreenshotGallery.offers
                    (ScreenshotGallery.render screenshots selected) c) eqn:Ho;
          [|discriminate].
        apply (IH (ScreenshotGallery.onClick selected c)); [|exact Hc].
        destruct c as [idx|]; cbn; [|exact I].
        unfold ScreenshotGallery.offers, ScreenshotGallery.render in Ho.
        destruct (length screenshots =? 0); [discriminate|].
        destruct selected as [i|].
        + destruct (nth_error screenshots i); [|discriminate].
          apply offered_thumbnail. exact Ho.
        + apply offered_thumbnail. exact Ho. }
    unfold ScreenshotGallery.render.
    destruct (length screenshots =? 0); [discriminate|].
    destruct selected' as [idx|]; [|discriminate].
    apply nth_error_Some in Hin.
    destruct (nth_error screenshots idx); [discriminate | tauto].
  - intros idx Hne Hle. unfold ScreenshotGallery.render.
    destruct screenshots as [|s screenshots]; [tauto|]. cbn [length Nat.eqb].
    apply nth_error_None in Hle. rewrite Hle. reflexivity.
Qed.

(* ===================================================================== *)
(** ** Facts about [ToolUsageIndicator] *)
(* ===================================================================== *)

(** The icon and the label of a tool are chosen by the same tests, so
    they go together in every row, and the rows name the tool calls in
    the order they came. *)
Theorem icon_and_label_agree (toolCalls : list ToolCall) :
  Forall (fun row =>
            match row with
            | (icon, label, _) =>
                label = match icon with
                        | ToolUsageIndicator.Github => js "Fetching GitHub data"
                        | ToolUsageIndicator.Camera => js "Taking screenshot"
                        | ToolUsageIndicator.Loader2 => js "Executing tool"
                        end
            end)
    (ToolUsageIndicator.rows toolCalls)
  /\ List.map snd (ToolUsageIndicator.rows toolCalls)
     = List.map (fun tc => name (function tc)) toolCalls.
Proof.
  unfold ToolUsageIndicator.rows. split.
  - apply Forall_map, Forall_forall. intros tc _.
    unfold ToolUsageIndicator.row, ToolUsageIndicator.getToolIcon,
      ToolUsageIndicator.getToolLabel.
    destruct (includes (js "github") (name (function tc))
              || includes (js "repo") (name (function tc))); [reflexivity|].
    destruct (includes (js "screenshot") (name (function tc))); reflexivity.
  - rewrite map_map. reflexivity.
Qed.

(* ===================================================================== *)
(** ** Facts about [MCPStatus] *)
(* ===================================================================== *)

(** The panel shows what the latest completed check found and nothing of
    the checks before it: a server is shown as up only when that check
    read a report that says so; a check that failed in any way shows both
    servers as down; before the first check ends the panel shows the
    spinner. *)
Theorem latest_check_decides (checks : list MCPStatus.Health) (h : MCPStatus.Health) :
  MCPStatus.render (MCPStatus.poll (checks ++ [h]))
  = MCPStatus.Servers
      [(js "GitHub MCP",
        match h with
        | MCPStatus.Report (Some s) => MCPStatus.github s
        | _ => false
        end);
       (js "Playwright MCP",
        match h with
        | MCPStatus.Report (Some s) => MCPStatus.playwright s
        | _ => false
        end)]
  /\ MCPStatus.render (MCPStatus.poll []) = MCPStatus.Checking.
Proof.
  split; [|reflexivity].
  unfold MCPStatus.poll. rewrite fold_left_app. cbn [fold_left].
  destruct h as [ | | |[s|]]; reflexivity.
Qed.

(* ===================================================================== *)
(** ** The answer of an exchange and its question *)
(* ===================================================================== *)

Section QuestionFacts.

Variable JSON_parse : jsstring -> option StreamEvent.
Variable toLowerCase : jsstring -> jsstring.
Variable engineSort : list Message -> list Message.

(** The question of an exchange stays where [handleSubmit] put it, as it
    was typed, when the answer gets another id. *)
Lemma submit_keeps_question (env : Env) (st : Client) :
  truthy (trim (input st)) = true -> isLoading st = false ->
  toString (nowUser env) <> toString (nowAssistant env) ->
  nth_error (messages (fst (handleSubmit JSON_parse env st))) (length (messages st))
  = Some (ChatInterface.userMessage env st).
Proof.
  intros Hi Hl Hne.
  pose proof (handleSubmit_no_stream JSON_parse env st Hi Hl) as Hn.
  assert (H2 : forall y,
             nth_error (messages st ++ [ChatInterface.userMessage env st; y])
               (length (messages st))
             = Some (ChatInterface.userMessage env st)).
  { intros y. rewrite nth_error_app2 by lia. rewrite Nat.sub_diag. reflexivity. }
  destruct (fetch env) as [message|r] eqn:Hf; [rewrite Hn; apply H2|].
  destruct (ok r) eqn:Hok; [|rewrite Hn; apply H2].
  destruct (body r) as [stream|] eqn:Hb; [|rewrite Hn; apply H2].
  rewrite (handleSubmit_stream JSON_parse env st r stream Hi Hl Hf Hok Hb).
  cbn [fst settled messages setIsLoading setCurrentToolCalls setCurrentToolResults].
  assert (Hk : nth_error
                 (messages (stateOf (readLoop JSON_parse (toString (nowAssistant env))
                                       (started env st) (chunks stream) (failure stream))))
                 (length (messages st))
               = Some (ChatInterface.userMessage env st)).
  { apply (loop_keeps JSON_parse (toString (nowAssistant env))
             (fun s => nth_error (messages s) (length (messages st))
                       = Some (ChatInterface.userMessage env st))).
    - intros s line Hs. apply processLine_frame; assumption.
    - intros s line Hs. apply processFinalLine_frame; assumption.
    - intros s b Hs. exact Hs.
    - change (messages (started env st))
        with ((messages st ++ [ChatInterface.userMessage env st])
              ++ [assistantMessage env]).
      rewrite nth_error_app1 by (rewrite length_app; cbn; lia).
      apply nth_error_snoc. }
  destruct (readLoop JSON_parse (toString (nowAssistant env)) (started env st)
              (chunks stream) (failure stream)) as [s|s message]; cbn in *.
  - exact Hk.
  - rewrite nth_error_app1; [exact Hk|].
    apply nth_error_Some. rewrite Hk. discriminate.
Qed.

(** The tables under the answer of an exchange are decided by the
    question of that exchange: with earlier questions whose ids are, as
    numbers, below the id of the new one, and an answer id that differs
    from the question's and does not sort before it, [MessageList] selects
    the question just asked. *)
Theorem answer_is_matched_with_its_question
    (env : Env) (st : Client) (answer : Message) :
  truthy (trim (input st)) = true -> isLoading st = false ->
  toString (nowUser env) <> toString (nowAssistant env) ->
  jsle (toString (nowUser env)) (toString (nowAssistant env)) = true ->
  (forall v, In v (messages st) -> role v = user ->
             (0 < subSign (Number (toString (nowUser env))) (Number (id v)))%Z) ->
  id answer = toString (nowAssistant env) ->
  userMessage engineSort (messages (fst (handleSubmit JSON_parse env st))) answer
  = Some (ChatInterface.userMessage env st)
  /\ userContent toLowerCase engineSort (messages (fst (handleSubmit JSON_parse env st))) answer
     = toLowerCase (input st).
Proof.
  intros Hi Hl Hne Hle Hold Hid.
  set (L' := messages (fst (handleSubmit JSON_parse env st))).
  set (q := ChatInterface.userMessage env st).
  pose proof (submit_keeps_question env st Hi Hl Hne) as Hq. fold L' q in Hq.
  destruct (appended_ids_and_roles JSON_parse env st Hi Hl)
    as (added & E & Ha). fold L' in E.
  (* every user message of the conversation is an older one or the question *)
  assert (Hcases : forall w, In w L' -> role w = user ->
             (0 < subSign (Number (id q)) (Number (id w)))%Z \/ w = q).
  { intros w Hw Hr. apply In_nth_error in Hw. destruct Hw as [i Hw].
    pose proof (map_nth_error (fun m => (id m, role m)) i L' Hw) as Hi'.
    rewrite E in Hi'.
    destruct (Nat.lt_ge_cases i (length (messages st))) as [Hlt|Hge].
    - rewrite nth_error_app1 in Hi' by (rewrite length_map; exact Hlt).
      rewrite nth_error_map in Hi'.
      destruct (nth_error (messages st) i) as [v|] eqn:Hv; [|discriminate].
      cbn in Hi'. injection Hi' as Hidv Hrv.
      left. rewrite <- Hidv. apply Hold.
      + eapply nth_error_In; eauto.
      + congruence.
    - rewrite nth_error_app2 in Hi' by (rewrite length_map; exact Hge).
      rewrite length_map in Hi'.
      destruct (i - length (messages st)) as [|j] eqn:Hj.
      + right. assert (i = length (messages st)) by lia. subst i.
        rewrite Hq in Hw. congruence.
      + cbn in Hi'. apply nth_error_In in Hi'.
        rewrite Forall_forall in Ha. apply Ha in Hi'.
        destruct Hi' as [Hp|Hp]; injection Hp as _ Hp; congruence. }
  assert (HqC : In q (candidates L' answer)).
  { apply filter_In. split; [eapply nth_error_In; eauto|].
    rewrite Hid. cbn. exact Hle. }
  assert (Hnum : Forall (fun v => Number (id v) <> None) (candidates L' answer)).
  { apply Forall_forall. intros w Hw. apply filter_In in Hw.
    destruct Hw as [Hw Hc]. apply andb_true_iff in Hc. destruct Hc as [Hr _].
    assert (Hrw : role w = user) by (destruct (role w); [reflexivity | discriminate]).
    destruct (Hcases w Hw Hrw) as [Hlt| ->].
    - intros Hn. rewrite Hn in Hlt.
      destruct (Number (id q)) as [[|]|]; cbn in Hlt; lia.
    - cbn. rewrite Number_toString. discriminate. }
  assert (Hu : userMessage engineSort L' answer = Some q).
  { unfold userMessage. fold (candidates L' answer).
    rewrite (sort_numeric engineSort _ Hnum).
    destruct (hd_error (stableSort (candidates L' answer))) as [u|] eqn:Hhd.
    - destruct (hd_stableSort_first_greatest _ Hnum u Hhd)
        as (before & after & Ec & Hb & Haf).
      assert (HuC : In u (candidates L' answer))
        by (rewrite Ec; apply in_or_app; right; left; reflexivity).
      apply filter_In in HuC.
      destruct HuC as [HuL Hc]. apply andb_true_iff in Hc. destruct Hc as [Hr _].
      assert (Hru : role u = user) by (destruct (role u); [reflexivity | discriminate]).
      destruct (Hcases u HuL Hru) as [Hlt| ->]; [|reflexivity].
      exfalso.
      assert (Hge : (0 <= subSign (Number (id u)) (Number (id q)))%Z).
      { rewrite Ec in HqC. apply in_app_or in HqC.
        destruct HqC as [Hin|[<-|Hin]].
        - rewrite Forall_forall in Hb. apply Hb in Hin. lia.
        - rewrite (subSign_opp (Number (id u)) (Number (id u))) in Hlt |- *. lia.
        - rewrite Forall_forall in Haf. apply Haf in Hin. exact Hin. }
      rewrite (subSign_opp (Number (id u)) (Number (id q))) in Hlt. lia.
    - exfalso. pose proof (stableSort_permutation (candidates L' answer)) as Hp.
      destruct (stableSort (candidates L' answer)) as [|x l]; [|discriminate].
      apply Permutation_sym, Permutation_nil in Hp. rewrite Hp in HqC.
      destruct HqC. }
  split; [exact Hu|].
  unfold userContent. rewrite Hu. reflexivity.
Qed.

(** A request for an analysis that names no pull request, no issue and
    has no "pr" in its text shows every table that has data, the commits
    without being asked for. *)
Theorem plain_analysis_shows_every_table
    (msgs : list Message) (message : Message) (results : list ToolResult) :
  role message = assistant ->
  toolResults message = Some results ->
  isGeneralAnalysis (userContent toLowerCase engineSort msgs message) = true ->
  includes (js "pull request") (userContent toLowerCase engineSort msgs message) = false ->
  includes (js "pr") (userContent toLowerCase engineSort msgs message) = false ->
  includes (js "issue") (userContent toLowerCase engineSort msgs message) = false ->
  (hasCommits results = true ->
   commitsTable (tablesOf toLowerCase engineSort msgs message) = Some (tableOf commits results))
  /\ (hasIssues results = true ->
      issuesTable (tablesOf toLowerCase engineSort msgs message) = Some (tableOf issues results))
  /\ (hasPullRequests results = true ->
      pullRequestsTable (tablesOf toLowerCase engineSort msgs message)
      = Some (tableOf pullRequests results)).
Proof.
  intros Hr Ht Hg Hq Hp Hi. destruct results as [|r results].
  - repeat split; discriminate.
  - rewrite (tablesOf_assistant toLowerCase engineSort msgs message r results Hr Ht).
    cbn [commitsTable issuesTable pullRequestsTable].
    unfold commitsBlock, issuesBlock, pullRequestsBlock, shouldShowCommits,
      shouldShowIssues, shouldShowPullRequests, askedForIssues.
    destruct (askedFor_short (userContent toLowerCase engineSort msgs message)) as [_ ->].
    rewrite Hg, Hq, Hp, Hi. cbn [negb orb andb]. rewrite !orb_true_r.
    repeat split; intros ->; reflexivity.
Qed.

End QuestionFacts.

(* ===================================================================== *)
(** ** The further theorems at sample inputs *)
(* ===================================================================== *)

Lemma ascii_stream_chunking_invariance_witness :
  readLoop Sample.parse Sample.assistantId Sample.reading
    [Sample.contentBytes ++ [x0a] ++ Sample.doneBytes ++ [x0a]] None
  = readLoop Sample.parse Sample.assistantId Sample.reading
      [Sample.contentBytes; [x0a] ++ Sample.doneBytes; [x0a]] None.
Proof.
  apply ascii_stream_chunking_invariance; reflexivity.
Defined.

Lemma blank_submit_is_ignored_witness :
  handleSubmit Sample.parse (Sample.streaming [])
    (setInput (js "   ") Sample.idle)
  = (setInput (js "   ") Sample.idle, None).
Proof.
  apply blank_submit_is_ignored. left. reflexivity.
Defined.

Lemma submit_leaves_form_ready_witness :
  let st' := fst (handleSubmit Sample.parse
                    (Sample.breaking [Sample.callBytes ++ [x0a]] (js "boom"))
                    Sample.idle) in
  input st' = [] /\ isLoading st' = false
  /\ currentToolCalls st' = [] /\ currentToolResults st' = []
  /\ indicator st' = None.
Proof.
  apply submit_leaves_form_ready; reflexivity.
Defined.

Lemma failed_request_reports_error_witness :
  messages (fst (handleSubmit Sample.parse Sample.offline Sample.idle))
  = [Sample.question; Sample.failed (js "Failed to fetch")].
Proof.
  apply (failed_request_reports_error Sample.parse Sample.offline Sample.idle
           (js "Failed to fetch")); [reflexivity | reflexivity |].
  left. reflexivity.
Defined.

Lemma failed_read_keeps_progress_witness :
  messages (fst (handleSubmit Sample.parse
                   (Sample.breaking [Sample.contentBytes ++ [x0a]; Sample.doneBytes]
                      (js "boom"))
                   Sample.idle))
  = messages
      (fold_left (processLine Sample.parse (toString 1700000000001))
         (removelast
            (split (concat (List.map TextDecoder.decode
                              [Sample.contentBytes ++ [x0a]; Sample.doneBytes]))))
         (started (Sample.breaking [Sample.contentBytes ++ [x0a]; Sample.doneBytes]
                     (js "boom"))
            Sample.idle))
    ++ [Sample.failed (js "boom")].
Proof.
  apply (failed_read_keeps_progress Sample.parse
           (Sample.breaking [Sample.contentBytes ++ [x0a]; Sample.doneBytes] (js "boom"))
           Sample.idle
           {| ok := true;
              body := Some {| chunks := [Sample.contentBytes ++ [x0a]; Sample.doneBytes];
                              failure := Some (js "boom") |} |}
           {| chunks := [Sample.contentBytes ++ [x0a]; Sample.doneBytes];
              failure := Some (js "boom") |}
           (js "boom")); reflexivity.
Defined.

Lemma submit_adds_two_or_three_messages_witness :
  length (messages (fst (handleSubmit Sample.parse
                           (Sample.later [Sample.contentBytes] (Some (js "boom")))
                           Sample.returning)))
  = length (messages Sample.returning) + 3.
Proof.
  apply (submit_adds_two_or_three_messages Sample.parse
           (Sample.later [Sample.contentBytes] (Some (js "boom")))
           Sample.returning); reflexivity.
Defined.

Lemma submit_keeps_history_witness :
  nth_error (messages (fst (handleSubmit Sample.parse
                              (Sample.later [Sample.contentBytes ++ [x0a]] None)
                              Sample.returning))) 1
  = Some Sample.report.
Proof.
  apply submit_keeps_history; try reflexivity.
  vm_compute. intros H. discriminate H.
Defined.

Lemma submit_only_appends_ids_and_roles_witness :
  exists added,
    List.map (fun m => (id m, role m))
      (messages (fst (handleSubmit Sample.parse
                        (Sample.later [Sample.contentBytes ++ [x0a]] None)
                        Sample.returning)))
    = List.map (fun m => (id m, role m)) (messages Sample.returning)
      ++ (toString 1700000005000, user) :: added
    /\ Forall (fun p => p = (toString 1700000005001, assistant)
                        \/ p = (toString 1700000005002, assistant)) added.
Proof.
  apply (submit_only_appends_ids_and_roles Sample.parse
           (Sample.later [Sample.contentBytes ++ [x0a]] None) Sample.returning);
    reflexivity.
Defined.

Lemma conversation_ids_stay_numbers_witness :
  Forall (fun m => Number (id m) <> None)
    (messages (fst (handleSubmit Sample.parse
                      (Sample.later [Sample.contentBytes ++ [x0a]] None)
                      Sample.returning))).
Proof.
  apply conversation_ids_stay_numbers; try reflexivity.
  repeat constructor; vm_compute; intros H; discriminate H.
Defined.

Lemma answer_is_concatenated_content_witness :
  exists m,
    nth_error (messages (fst (handleSubmit Sample.parse
                                (Sample.streaming
                                   [Sample.contentBytes ++ [x0a] ++ Sample.callBytes;
                                    [x0a] ++ Sample.contentBytes])
                                Sample.idle))) 1 = Some m
    /\ id m = toString 1700000000001
    /\ role m = assistant
    /\ content m = js "HiHi".
Proof.
  apply (answer_is_concatenated_content Sample.parse
           (Sample.streaming [Sample.contentBytes ++ [x0a] ++ Sample.callBytes;
                              [x0a] ++ Sample.contentBytes])
           Sample.idle
           {| ok := true;
              body := Some {| chunks := [Sample.contentBytes ++ [x0a] ++ Sample.callBytes;
                                         [x0a] ++ Sample.contentBytes];
                              failure := None |} |}
           {| chunks := [Sample.contentBytes ++ [x0a] ++ Sample.callBytes;
                         [x0a] ++ Sample.contentBytes];
              failure := None |}); reflexivity.
Defined.

Lemma indicator_matches_answer_witness :
  let reading :=
    fold_left (onChunk Sample.parse (toString 1700000000001))
      [Sample.callBytes ++ [x0a]; Sample.resultBytes]
      (started (Sample.streaming []) Sample.idle) in
  exists m,
    nth_error (messages reading) 1 = Some m
    /\ toolCalls m = Some (currentToolCalls reading)
    /\ toolResults m = Some (currentToolResults reading)
    /\ indicator reading
       = if 0 <? length (currentToolCalls reading) then toolCalls m else None.
Proof.
  apply (indicator_matches_answer Sample.parse (Sample.streaming []) Sample.idle
           [Sample.callBytes ++ [x0a]; Sample.resultBytes]).
  reflexivity.
Defined.

Lemma other_lines_are_ignored_witness :
  readLoop Sample.parse Sample.assistantId Sample.reading
    [Sample.contentBytes ++ [x0a] ++ bytesq ": keep-alive" ++ [x0a]
     ++ Sample.doneBytes ++ [x0a]] None
  = readLoop Sample.parse Sample.assistantId Sample.reading
      [Sample.contentBytes ++ [x0a] ++ Sample.doneBytes ++ [x0a]] None.
Proof.
  apply (other_lines_are_ignored Sample.parse Sample.assistantId Sample.reading
           (Sample.contentRecord ++ [LF]) (js ": keep-alive")
           (Sample.doneRecord ++ [LF])); try reflexivity.
  vm_compute. intros H.
  repeat (destruct H as [H|H]; [discriminate H|]). exact H.
Defined.

Lemma naming_pull_requests_hides_issues_witness :
  let msgs := [Sample.asked (js "Show me issues and pull requests"); Sample.overview] in
  issuesTable (tablesOf Sample.lower Sample.engine msgs Sample.overview) = None
  /\ (hasPullRequests [Sample.commitsResult (Sample.entries 3);
                       Sample.issuesResult (Sample.entries 2);
                       Sample.pullRequestsResult (Sample.entries 4)] = true ->
      pullRequestsTable (tablesOf Sample.lower Sample.engine msgs Sample.overview)
      = Some (tableOf pullRequests
                [Sample.commitsResult (Sample.entries 3);
                 Sample.issuesResult (Sample.entries 2);
                 Sample.pullRequestsResult (Sample.entries 4)])).
Proof.
  intros msgs.
  apply (naming_pull_requests_hides_issues Sample.lower Sample.engine msgs Sample.overview);
    reflexivity.
Defined.

Lemma pr_anywhere_narrows_the_tables_witness :
  let msgs := [Sample.asked (js "Analyze this project"); Sample.overview] in
  commitsTable (tablesOf Sample.lower Sample.engine msgs Sample.overview) = None
  /\ issuesTable (tablesOf Sample.lower Sample.engine msgs Sample.overview) = None
  /\ (hasPullRequests [Sample.commitsResult (Sample.entries 3);
                       Sample.issuesResult (Sample.entries 2);
                       Sample.pullRequestsResult (Sample.entries 4)] = true ->
      pullRequestsTable (tablesOf Sample.lower Sample.engine msgs Sample.overview)
      = Some (tableOf pullRequests
                [Sample.commitsResult (Sample.entries 3);
                 Sample.issuesResult (Sample.entries 2);
                 Sample.pullRequestsResult (Sample.entries 4)])).
Proof.
  intros msgs.
  apply (pr_anywhere_narrows_the_tables Sample.lower Sample.engine msgs Sample.overview);
    reflexivity.
Defined.

Lemma no_question_no_tables_witness :
  tablesOf Sample.lower Sample.engine [Sample.overview] Sample.overview = noTables.
Proof.
  apply no_question_no_tables.
  intros m [<-|[]] H. discriminate H.
Defined.

Lemma commits_table_stops_scrolling_witness :
  scrollsToBottom [Sample.asked (js "Show the commit history"); Sample.overview] true
  = false.
Proof.
  apply (commits_table_stops_scrolling Sample.lower Sample.engine
           [Sample.asked (js "Show the commit history"); Sample.overview]
           Sample.overview
           (tableOf commits [Sample.commitsResult (Sample.entries 3);
                             Sample.issuesResult (Sample.entries 2);
                             Sample.pullRequestsResult (Sample.entries 4)])).
  - right; left; reflexivity.
  - reflexivity.
Defined.

Lemma truncated_cell_bounds_witness :
  truncated 7 (js "0123456789abcdef") = js "0123456..."
  /\ length (truncated 7 (js "0123456789abcdef")) = 7 + 3.
Proof.
  apply (proj2 (proj2 (proj2 (truncated_cell_bounds 7 (js "0123456789abcdef"))))).
  vm_compute. lia.
Defined.

Lemma clicks_open_existing_screenshots_witness :
  ScreenshotGallery.render Sample.shots (Some 1) <> ScreenshotGallery.Failure
  /\ (forall idx, Sample.shots <> [] -> length Sample.shots <= idx ->
        ScreenshotGallery.render Sample.shots (Some idx) = ScreenshotGallery.Failure).
Proof.
  apply (clicks_open_existing_screenshots Sample.shots
           [ScreenshotGallery.Thumbnail 0; ScreenshotGallery.CloseLightbox;
            ScreenshotGallery.Thumbnail 1]
           None (Some 1)).
  - exact I.
  - reflexivity.
Defined.

Lemma answer_is_matched_with_its_question_witness :
  let env := Sample.later [Sample.contentBytes ++ [x0a]] None in
  let reply := Sample.answer (js "Hi") [] [] in
  let reply' :=
    {| id := toString 1700000005001; role := assistant; content := content reply;
       toolCalls := toolCalls reply; toolResults := toolResults reply |} in
  userMessage Sample.engine (messages (fst (handleSubmit Sample.parse env Sample.returning))) reply'
  = Some (ChatInterface.userMessage env Sample.returning)
  /\ userContent Sample.lower Sample.engine
       (messages (fst (handleSubmit Sample.parse env Sample.returning))) reply'
     = Sample.lower (input Sample.returning).
Proof.
  intros env reply reply'.
  apply (answer_is_matched_with_its_question Sample.parse Sample.lower Sample.engine env
           Sample.returning reply'); try reflexivity.
  - vm_compute. intros H. discriminate H.
  - intros v [<-|[<-|[]]] Hr; [|discriminate Hr].
    vm_compute. reflexivity.
Defined.

Lemma plain_analysis_shows_every_table_witness :
  let msgs := [Sample.asked (js "Analyze vercel/next.js"); Sample.overview] in
  let results := [Sample.commitsResult (Sample.entries 3);
                  Sample.issuesResult (Sample.entries 2);
                  Sample.pullRequestsResult (Sample.entries 4)] in
  (hasCommits results = true ->
   commitsTable (tablesOf Sample.lower Sample.engine msgs Sample.overview)
   = Some (tableOf commits results))
  /\ (hasIssues results = true ->
      issuesTable (tablesOf Sample.lower Sample.engine msgs Sample.overview)
      = Some (tableOf issues results))
  /\ (hasPullRequests results = true ->
      pullRequestsTable (tablesOf Sample.lower Sample.engine msgs Sample.overview)
      = Some (tableOf pullRequests results)).
Proof.
  intros msgs results.
  apply (plain_analysis_shows_every_table Sample.lower Sample.engine msgs Sample.overview results);
    reflexivity.
Defined.
